(** * aiotgbotapi: the update dispatch engine of [Bot]

    A shallow embedding of [aiotgbotapi/bot.py] (class [Bot] and class
    [Handler]), of the [get_updates] entry of [bot_api_client.py], of
    [errors.py] and of the [Update] / [_BaseModel] records of [types.py],
    followed by the properties of registration, filtering, middleware
    composition, fan-out and polling.

    Conventions of the embedding.
    - Python objects that are compared by identity carry an object
      identifier ([oid], [fn_id]).
    - A coroutine is a computation in the monad [M]: it appends to an
      event trace and either returns or raises.  asyncio is cooperative, so
      a coroutine that never suspends runs to completion when it is
      scheduled; tasks are run in the order in which they were scheduled.
    - An object that the code mutates in place (the [EXTRA] dict of a
      sub-update) is passed explicitly: a function that mutates its argument
      returns the mutated object next to its result.
    - The bot passed as first argument to handlers and middlewares is the
      one [Bot] instance; callables of the model close over it. *)

From Stdlib Require Import ZArith Bool.
From stdpp Require Import base strings list gmap fin_maps pretty.

Local Open Scope string_scope.
Local Open Scope Z_scope.
Local Open Scope list_scope.

(** ** Python values, exceptions *)

Module Py.

(** Values stored in an [EXTRA] dict. [VBot] is the bot instance. *)
Inductive value : Type :=
| VBot
| VBool (b : bool)
| VInt (z : Z)
| VStr (s : string).

(** A Python [dict] with string keys. *)
Abbreviation dict := (gmap string value).

(** What a filter may return. *)
Inductive object : Type :=
| None_
| Bool_ (b : bool)
| Int_ (z : Z)
| Str_ (s : string)
| Dict_ (d : dict).

(** [bool(o)]: Python truthiness. *)
Definition bool_ (o : object) : bool :=
  match o with
  | None_ => false
  | Bool_ b => b
  | Int_ z => negb (Z.eqb z 0)
  | Str_ s => negb (String.eqb s "")
  | Dict_ d => negb (bool_decide (d = ∅))
  end.

(** [isinstance(o, dict)] *)
Definition isinstance_dict (o : object) : bool :=
  match o with Dict_ _ => true | _ => false end.

(** [d1 |= d2]: every key of [d2] is written into [d1]. *)
Definition ior (d1 d2 : dict) : dict := d2 ∪ d1.

(** Exceptions.  [RuntimeError], [ValueError], [KeyError] and [Exception_]
    (any other subclass of [Exception] raised by user code) derive from
    [Exception]; [TelegramException] is errors.py:
    [class TelegramException(BaseException)]. *)
Inductive exc : Type :=
| RuntimeError (msg : string)
| ValueError (msg : string)
| KeyError
| Exception_ (msg : string)
| TelegramException (code : Z) (message : string).

(** [isinstance(e, Exception)]: what [except Exception] matches. *)
Definition isinstance_Exception (e : exc) : bool :=
  match e with
  | TelegramException _ _ => false
  | _ => true
  end.

Inductive outcome (A : Type) : Type :=
| Returned (a : A)
| Raised (e : exc).
Arguments Returned {A} a.
Arguments Raised {A} e.

End Py.
Import Py.

(** ** Events and the coroutine monad *)

(** Identity of a [Handler] object. *)
Abbreviation oid := nat.

Inductive Event : Type :=
| Out (label : string)
    (** an observable action of user code (handler body or middleware) *)
| handler_awaited (h : oid)
    (** [__call_handler]: [await handler(self, update)] is entered *)
| function_called (h : oid) (fn : nat) (extra : dict)
    (** [Handler.__call__]: [self.function(client, update)] is called;
        [extra] is [update.EXTRA] at the call *)
| logger_error (h : oid) (e : exc)
    (** [__call_handler]: [self.logger.error(...)] *)
| logger_info (msg : string)
| get_updates_called (offset limit timeout : Z)
    (** [BotAPIClient.get_updates] *)
| sleep_called
| task_created (update_id : Z)
    (** [asyncio.create_task(self.__handle_update(update))] *).

Definition M (A : Type) : Type := (list Event * outcome A)%type.

Definition raise {A} (e : exc) : M A := ([], Raised e).
Definition emit (ev : Event) : M unit := ([ev], Returned tt).

Definition bind {A B} (m : M A) (k : A → M B) : M B :=
  match m with
  | (t, Returned a) => let '(t', r) := k a in (t ++ t', r)
  | (t, Raised e) => (t, Raised e)
  end.

(** stdpp's monad notations: [x ← m; k] and [m;; k]. *)
#[global] Instance M_ret : MRet M := λ A a, ([], Returned a).
#[global] Instance M_bind : MBind M := λ A B k m, bind m k.

(** [try: m except Exception as e: h e] *)
Definition try_except_Exception {A} (m : M A) (h : exc → M A) : M A :=
  match m with
  | (t, Raised e) =>
      if isinstance_Exception e then let '(t', r) := h e in (t ++ t', r)
      else (t, Raised e)
  | _ => m
  end.

(** [try: m finally: f] *)
Definition try_finally {A} (m : M A) (f : M unit) : M A :=
  match m with
  | (t, r) =>
      match f with
      | (t', Returned _) => (t ++ t', r)
      | (t', Raised e) => (t ++ t', Raised e)
      end
  end.

Definition trace {A} (m : M A) : list Event := fst m.
Definition result {A} (m : M A) : outcome A := snd m.

(** ** types.py: [_BaseModel], [Update] *)

(** A sub-update ([Message], [InlineQuery], ..., all [_BaseModel]): the
    fields of the Telegram object are kept opaque in [payload]; [EXTRA] is
    the [EXTRA: dict = {}] of [_BaseModel], one dict per instance. *)
Record SomeUpdate : Type := {
  payload : string;
  EXTRA : dict;
}.

(** [Update]: [update_id] and thirteen optional sub-updates.  The optional
    fields are kept by field name, as [getattr(update, name, None)] reads
    them; a field that is [None] is absent from [fields]. *)
Record Update : Type := {
  update_id : Z;
  fields : gmap string SomeUpdate;
}.

Definition getattr (update : Update) (name : string) : option SomeUpdate :=
  fields update !! name.

(** ** bot.py: [Handler] *)

(** A coroutine function [async def f(bot, update)]: [fn_id] is the identity
    of the function object (what [function.__hash__()] returns); the body
    reads the sub-update, performs observable actions and returns or
    raises. *)
Record HandlerCallable : Type := {
  fn_id : nat;
  fn_body : SomeUpdate → list string * outcome unit;
}.

(** A filter ([BaseFilter] instance, callable): awaited on the sub-update,
    it returns an object or raises. *)
Definition AnyFilterCallable : Type := SomeUpdate → outcome object.

(** [Handler]: [handler_oid] is the identity of the object.  [filters] is
    [None] or a [BaseFilter], which is callable; [Handler.__init__] refuses
    anything else. *)
Record Handler : Type := {
  handler_oid : oid;
  function : HandlerCallable;
  update_type : string;
  filters : option AnyFilterCallable;
}.

(** [Handler.__hash__]: [return self.function.__hash__()] *)
Definition Handler___hash__ (self : Handler) : nat := fn_id (function self).

(** [Handler] defines no [__eq__]: [object.__eq__] compares identities. *)
Definition Handler___eq__ (self other : Handler) : bool :=
  Nat.eqb (handler_oid self) (handler_oid other).

(** [await self.function(client, update)] *)
Definition call_function (self : Handler) (update : SomeUpdate) : M unit :=
  emit (function_called (handler_oid self) (fn_id (function self)) (EXTRA update));;
  let '(labels, r) := fn_body (function self) update in
  (Out <$> labels, r).

(** [Handler.__call__(self, client, update)].  Returns the sub-update as the
    call leaves it, and the coroutine's trace and result. *)
Definition Handler___call__ (self : Handler) (update : SomeUpdate)
  : SomeUpdate * M unit :=
  match filters self with
  | Some f =>
      match f update with
      | Raised e => (update, raise e)
      | Returned filter_result =>
          if negb (bool_ filter_result) then (update, mret tt)
          else
            let update' :=
              match filter_result with
              | Dict_ d =>
                  {| payload := payload update; EXTRA := ior (EXTRA update) d |}
              | _ => update
              end in
            (update', call_function self update')
      end
  | None => (update, call_function self update)
  end.

(** ** bot.py: [Bot] *)

(** [async def m(bot, update, call_next)] *)
Definition MiddlewareCallable : Type := Update → (Update → M unit) → M unit.

(** A [set[Handler]], as the list of its members in iteration order.
    Membership goes through [__hash__] and then [__eq__], as CPython's set
    lookup does.  CPython fixes the iteration order by the hashes; the
    embedding takes insertion order, and the properties of the fan-out are
    stated for whatever order the list has. *)
Definition set_contains (s : list Handler) (h : Handler) : bool :=
  existsb (λ h', Nat.eqb (Handler___hash__ h') (Handler___hash__ h)
                 && Handler___eq__ h' h) s.

(** [s.add(h)] *)
Definition set_add (s : list Handler) (h : Handler) : list Handler :=
  if set_contains s h then s else s ++ [h].

(** [s.remove(h)]: [None] stands for [KeyError]. *)
Definition set_remove (s : list Handler) (h : Handler) : option (list Handler) :=
  if set_contains s h
  then Some (List.filter
               (λ h', negb (Nat.eqb (Handler___hash__ h') (Handler___hash__ h)
                            && Handler___eq__ h' h)) s)
  else None.

(** The keys of [__updates_handlers], in the insertion order of the dict
    literal.  No key is ever added or removed, so this list is what
    [self.__updates_handlers.keys()] iterates over. *)
Definition update_types : list string :=
  [ "message"; "edited_message"; "channel_post"; "edited_channel_post";
    "inline_query"; "chosen_inline_result"; "callback_query";
    "shipping_query"; "pre_checkout_query"; "poll"; "poll_answer";
    "my_chat_member"; "chat_member" ].

(** The state of the one [Bot] instance: the class attributes [__running],
    [__updates_handlers], [__middlewares], [__prepared_middlewares] and the
    instance attribute [polling_timeout]. *)
Record Bot : Type := {
  running : bool;
  updates_handlers : gmap string (list Handler);
  middlewares : list MiddlewareCallable;
  prepared_middlewares : list MiddlewareCallable;
  polling_timeout : Z;
  allocated : nat;
    (** number of [Handler] objects created so far: the next object
        identity *)
}.

(** The class attributes of [Bot] and [Bot.__init__]. *)
Definition Bot___init__ (polling_timeout : Z) : Bot :=
  {| running := false;
     updates_handlers := list_to_map ((λ k, (k, [])) <$> update_types);
     middlewares := [];
     prepared_middlewares := [];
     polling_timeout := polling_timeout;
     allocated := 0%nat |}.

Definition set_running (b : bool) (self : Bot) : Bot :=
  {| running := b;
     updates_handlers := updates_handlers self;
     middlewares := middlewares self;
     prepared_middlewares := prepared_middlewares self;
     polling_timeout := polling_timeout self;
     allocated := allocated self |}.

(** [self.__updates_handlers[update_type]], [[]] for a missing key. *)
Definition handlers_for (self : Bot) (update_type : string) : list Handler :=
  default [] (updates_handlers self !! update_type).

(** [Bot.__prepare_middlewares_handlers] *)
Definition prepare_middlewares_handlers (self : Bot) : Bot :=
  {| running := running self;
     updates_handlers := updates_handlers self;
     middlewares := middlewares self;
     prepared_middlewares := rev (middlewares self);
     polling_timeout := polling_timeout self;
     allocated := allocated self |}.

(** [Bot.start].  The remote call of [__prepare_webhook] ([set_webhook] or
    [delete_webhook]) is taken to return. *)
Definition start (self : Bot) : M Bot :=
  emit (logger_info "Starting bot");;
  mret (set_running true (prepare_middlewares_handlers self)).

(** [Bot.stop] *)
Definition stop (self : Bot) : M Bot :=
  emit (logger_info "Stopping Bot...");;
  mret (set_running false self).

(** [Bot.add_middleware] *)
Definition add_middleware (self : Bot) (middleware : MiddlewareCallable)
  : outcome Bot :=
  if running self
  then Raised (RuntimeError "Unable to add middleware in already running bot instance!")
  else Returned
         {| running := running self;
            updates_handlers := updates_handlers self;
            middlewares := middlewares self ++ [middleware];
            prepared_middlewares := prepared_middlewares self;
            polling_timeout := polling_timeout self;
            allocated := allocated self |}.

Definition set_handlers (update_type : string) (s : list Handler) (self : Bot)
  : Bot :=
  {| running := running self;
     updates_handlers := <[update_type := s]> (updates_handlers self);
     middlewares := middlewares self;
     prepared_middlewares := prepared_middlewares self;
     polling_timeout := polling_timeout self;
     allocated := allocated self |}.

(** [Bot.add_update_handler]: returns the bot and the new [Handler]. *)
Definition add_update_handler (self : Bot) (function : HandlerCallable)
    (update_type : string) (filters : option AnyFilterCallable)
  : outcome (Bot * Handler) :=
  if running self
  then Raised (RuntimeError "Unable to add middleware in already running bot instance!")
  else
    match updates_handlers self !! update_type with
    | None => Raised (ValueError ("Unsupported update type: " +:+ update_type +:+ "!"))
    | Some s =>
        let handler := {| handler_oid := allocated self;
                          function := function;
                          update_type := update_type;
                          filters := filters |} in
        let self' := set_handlers update_type (set_add s handler) self in
        Returned ({| running := running self';
                     updates_handlers := updates_handlers self';
                     middlewares := middlewares self';
                     prepared_middlewares := prepared_middlewares self';
                     polling_timeout := polling_timeout self';
                     allocated := S (allocated self) |}, handler)
    end.

(** [Bot.remove_update_handler]: both the dict lookup and [set.remove]
    raise [KeyError], which is turned into [ValueError]. *)
Definition remove_update_handler (self : Bot) (handler : Handler)
  : outcome Bot :=
  match updates_handlers self !! update_type handler with
  | None => Raised (ValueError "handler is not registered as handler")
  | Some s =>
      match set_remove s handler with
      | None => Raised (ValueError "handler is not registered as handler")
      | Some s' => Returned (set_handlers (update_type handler) s' self)
      end
  end.

(** ** Dispatch *)

Definition set_EXTRA (d : dict) (update : SomeUpdate) : SomeUpdate :=
  {| payload := payload update; EXTRA := d |}.

Definition set_field (name : string) (v : SomeUpdate) (update : Update) : Update :=
  {| update_id := update_id update; fields := <[name := v]> (fields update) |}.

(** [Bot.__call_handler(handler, update)]: the guarded call.  Returns the
    sub-update as the call leaves it.  Building the log message, which
    serialises the sub-update, is taken to return. *)
Definition call_handler (handler : Handler) (update : SomeUpdate)
  : SomeUpdate * M unit :=
  let '(update', m) := Handler___call__ handler update in
  (update',
   try_except_Exception
     (emit (handler_awaited (handler_oid handler));; m)
     (λ e, emit (logger_error (handler_oid handler) e))).

(** A coroutine object [self.__call_handler(h, update_field)] waiting in
    [tasks]: the handler and the field of the update that [update_field]
    refers to. *)
Definition Task : Type := (Handler * string)%type.

(** [update_field.EXTRA["bot"] = self] *)
Definition with_bot (update_field : SomeUpdate) : SomeUpdate :=
  set_EXTRA (<["bot" := VBot]> (EXTRA update_field)) update_field.

(** The coroutine objects [self.__call_handler(h, update_field)] for the
    handlers [hs] of the field [update_type]. *)
Definition tasks_for (update_type : string) (hs : list Handler) : list Task :=
  (λ h, (h, update_type)) <$> hs.

(** The body of the [for update_type in self.__updates_handlers.keys()] loop
    of [__call_handlers]: a populated field (a pydantic model is truthy)
    gets [EXTRA["bot"]] and one task per handler of its kind. *)
Definition collect_step (self : Bot) (acc : Update * list Task)
    (update_type : string) : Update * list Task :=
  let '(update, tasks) := acc in
  match getattr update update_type with
  | Some update_field =>
      (set_field update_type (with_bot update_field) update,
       tasks ++ tasks_for update_type (handlers_for self update_type))
  | None => (update, tasks)
  end.

Definition collect_tasks (self : Bot) (update : Update) : Update * list Task :=
  foldl (collect_step self) (update, []) update_types.

(** Running one task against the update object it refers into. *)
Definition run_task (task : Task) (update : Update) : Update * M unit :=
  let '(h, update_type) := task in
  match getattr update update_type with
  | Some update_field =>
      let '(update_field', m) := call_handler h update_field in
      (set_field update_type update_field' update, m)
  | None => (update, mret tt)
  end.

(** [await asyncio.gather] over [tasks] with [return_exceptions=True]:
    every task is run, in order; what a task raises becomes its entry in
    the list of results. *)
Fixpoint gather (tasks : list Task) (update : Update)
  : Update * (list Event * list (outcome unit)) :=
  match tasks with
  | [] => (update, ([], []))
  | task :: tasks' =>
      let '(update1, (t, r)) := run_task task update in
      let '(update2, (t', rs)) := gather tasks' update1 in
      (update2, (t ++ t', r :: rs))
  end.

(** [Bot.__call_handlers(update)]: the fan-out step. *)
Definition call_handlers (self : Bot) (update : Update) : M unit :=
  let '(update', tasks) := collect_tasks self update in
  let '(_, (t, _)) := gather tasks update' in
  (t, Returned tt).

(** [Bot.__handle_update(update)] *)
Definition handle_update (self : Bot) (update : Update) : M unit :=
  if bool_decide (length (prepared_middlewares self) = 0%nat)
  then call_handlers self update
  else
    let __fn : Update → M unit := λ _, call_handlers self update in
    let call_next :=
      foldl (λ (call_next : Update → M unit) (m : MiddlewareCallable),
               (λ update, m update call_next))
            __fn (prepared_middlewares self) in
    call_next update.

(** [Bot.__handle_updates(updates)]: one task per update.  The tasks run
    once the caller yields, in creation order; nobody awaits them, so what
    they raise is dropped. *)
Definition handle_updates (self : Bot) (updates : list Update) : M unit :=
  let created := (λ update, task_created (update_id update)) <$> updates in
  let ran := concat ((λ update, trace (handle_update self update)) <$> updates) in
  (created ++ ran, Returned tt).

(** [Bot.__on_webhook_received(updates)] *)
Definition on_webhook_received (self : Bot) (updates : list Update) : M unit :=
  handle_updates self updates.

(** [BotAPIClient.get_updates(offset, limit=100, timeout, allowed_updates)]:
    the request is recorded; the answer of the server is [response]. *)
Definition get_updates (offset timeout : Z) (response : outcome (list Update))
  : M (list Update) :=
  emit (get_updates_called offset 100 timeout);;
  match response with
  | Returned updates => mret updates
  | Raised e => raise e
  end.

(** [updates[-1].update_id] *)
Definition last_update_id (updates : list Update) (default : Z) : Z :=
  match last updates with
  | Some u => update_id u
  | None => default
  end.

(** The [while self.__running] loop of [run_long_polling].  [responses] are
    the answers of the server to the successive [get_updates] calls; the
    flag is cleared (by [stop], from outside the loop) when they are
    used up. *)
Fixpoint polling_loop (self : Bot) (responses : list (outcome (list Update)))
    (last_received_update_id : Z) : M Z :=
  match responses with
  | [] => mret last_received_update_id
  | response :: responses' =>
      updates ← get_updates (last_received_update_id + 1)
                            (polling_timeout self) response;
      let last_received_update_id :=
        if bool_decide (0 < length updates)%nat
        then last_update_id updates last_received_update_id
        else last_received_update_id in
      emit sleep_called;;
      polling_loop self responses' last_received_update_id
  end.

(** [Bot.run_long_polling]: returns the final value of
    [last_received_update_id]; the [finally] block stops the bot. *)
Definition run_long_polling (self : Bot) (responses : list (outcome (list Update)))
  : M Z :=
  emit (logger_info "Start polling updates");;
  try_finally
    (if running self then polling_loop self responses (-1) else mret (-1))
    (emit (logger_info "Stop polling");; stop self;; mret tt).

(** [Bot.run] in polling mode ([webhook_settings] unset):
    [async with self: await self.run_long_polling()]. *)
Definition run (self : Bot) (responses : list (outcome (list Update))) : M Z :=
  self ← start self;
  try_finally (run_long_polling self responses) (stop self;; mret tt).

(** ** Observations on traces *)

(** The [offset] arguments of the [get_updates] calls, in order. *)
Definition offsets_sent (t : list Event) : list Z :=
  omap (λ ev, match ev with
              | get_updates_called offset _ _ => Some offset
              | _ => None
              end) t.

(** The handlers whose guarded call was entered, in order. *)
Definition awaited (t : list Event) : list oid :=
  omap (λ ev, match ev with handler_awaited h => Some h | _ => None end) t.

(** The handlers whose function was called, with the [EXTRA] they saw. *)
Definition called (t : list Event) : list (oid * dict) :=
  omap (λ ev, match ev with
              | function_called h _ extra => Some (h, extra)
              | _ => None
              end) t.

(** The errors logged by [__call_handler]. *)
Definition errors_logged (t : list Event) : list (oid * exc) :=
  omap (λ ev, match ev with logger_error h e => Some (h, e) | _ => None end) t.

(** The observable actions of user code. *)
Definition outs (t : list Event) : list string :=
  omap (λ ev, match ev with Out label => Some label | _ => None end) t.

(** Events that only a dispatch produces. *)
Definition is_dispatch (ev : Event) : bool :=
  match ev with
  | task_created _ | handler_awaited _ | function_called _ _ _
  | logger_error _ _ | Out _ => true
  | _ => false
  end.

(** ** Reachable bots *)

(** The bots that the public operations produce from a new one. *)
Inductive reachable : Bot → Prop :=
| reachable_init (t : Z) :
    reachable (Bot___init__ t)
| reachable_add_update_handler self f ty flt bot h :
    reachable self →
    add_update_handler self f ty flt = Returned (bot, h) →
    reachable bot
| reachable_remove_update_handler self h bot :
    reachable self →
    remove_update_handler self h = Returned bot →
    reachable bot
| reachable_add_middleware self m bot :
    reachable self →
    add_middleware self m = Returned bot →
    reachable bot
| reachable_start self bot :
    reachable self → result (start self) = Returned bot → reachable bot
| reachable_stop self bot :
    reachable self → result (stop self) = Returned bot → reachable bot.

(** ** Sample callables and updates *)

(** [async def f(bot, update): print(label)] *)
Definition printing (id : nat) (label : string) : HandlerCallable :=
  {| fn_id := id; fn_body := λ _, ([label], Returned tt) |}.


(** [async def m(bot, update, call_next)]: prints, awaits [call_next],
    prints. *)
Definition tracing_middleware (name : string) : MiddlewareCallable :=
  λ update call_next,
    emit (Out (name +:+ "-enter"));;
    call_next update;;
    emit (Out (name +:+ "-exit")).

(** An update whose only populated field is [message]. *)
Definition message_update (id : Z) : Update :=
  {| update_id := id;
     fields := {[ "message" := {| payload := "hello"; EXTRA := ∅ |} ]} |}.

(** Registering [regs] in order on [self]; a refused registration is
    skipped. *)
Definition register_all (self : Bot)
    (regs : list (HandlerCallable * option AnyFilterCallable)) : Bot :=
  foldl (λ self '(f, flt),
           match add_update_handler self f "message" flt with
           | Returned (bot, _) => bot
           | Raised _ => self
           end) self regs.

(** Adding the middlewares [ms] in order; a refused one is skipped. *)
Definition with_middlewares (self : Bot) (ms : list MiddlewareCallable) : Bot :=
  foldl (λ self m,
           match add_middleware self m with
           | Returned bot => bot
           | Raised _ => self
           end) self ms.

(** The bot that [start] returns. *)
Definition started_bot (self : Bot) : Bot :=
  match result (start self) with
  | Returned bot => bot
  | Raised _ => self
  end.


(** ** The shared sub-update *)


(** ** Registry invariant *)

(** Every registered handler, kind by kind. *)
Definition all_handlers (self : Bot) : list Handler :=
  update_types ≫= handlers_for self.

(** Handlers are distinct objects, allocated before [allocated self]: what
    [Bot___init__] establishes and registration maintains. *)
Definition registry_wf (self : Bot) : Prop :=
  NoDup (handler_oid <$> all_handlers self)
  ∧ Forall (λ h, (handler_oid h < allocated self)%nat) (all_handlers self).

(** The mapping that the filter of [h] contributes on [update]: its result
    when that is a dict, nothing otherwise. *)
Definition own_context (h : Handler) (update : SomeUpdate) : dict :=
  match filters h with
  | Some f =>
      match f update with
      | Returned (Dict_ d) => d
      | _ => ∅
      end
  | None => ∅
  end.

(** ** bot.py: the decorator and the typed registration helpers *)

(** [Bot.on_update(update_type, filters=...)(function)]: registers and
    returns the function itself; the [Handler] is dropped. *)
Definition on_update (self : Bot) (update_type : string)
    (filters : option AnyFilterCallable) (function : HandlerCallable)
  : outcome (Bot * HandlerCallable) :=
  match add_update_handler self function update_type filters with
  | Returned (bot, _) => Returned (bot, function)
  | Raised e => Raised e
  end.

(** The signature shared by [add_message_handler], ...,
    [add_chat_member_handler]. *)
Definition AddHandler : Type :=
  Bot → HandlerCallable → option AnyFilterCallable → outcome (Bot * Handler).

(** The signature shared by [on_message], ..., [on_chat_member], applied to
    the decorated function. *)
Definition OnUpdate : Type :=
  Bot → option AnyFilterCallable → HandlerCallable → outcome (Bot * HandlerCallable).

Definition add_message_handler : AddHandler :=
  λ self function filters, add_update_handler self function "message" filters.
Definition on_message : OnUpdate :=
  λ self filters, on_update self "message" filters.

Definition add_edited_message_handler : AddHandler :=
  λ self function filters, add_update_handler self function "edited_message" filters.
Definition on_edited_message : OnUpdate :=
  λ self filters, on_update self "edited_message" filters.

Definition add_channel_post_handler : AddHandler :=
  λ self function filters, add_update_handler self function "channel_post" filters.
Definition on_channel_post : OnUpdate :=
  λ self filters, on_update self "channel_post" filters.

Definition add_edited_channel_post_handler : AddHandler :=
  λ self function filters,
    add_update_handler self function "edited_channel_post" filters.
Definition on_edited_channel_post : OnUpdate :=
  λ self filters, on_update self "edited_channel_post" filters.

Definition add_inline_query_handler : AddHandler :=
  λ self function filters, add_update_handler self function "inline_query" filters.
Definition on_inline_query : OnUpdate :=
  λ self filters, on_update self "inline_query" filters.

Definition add_chosen_inline_result_handler : AddHandler :=
  λ self function filters,
    add_update_handler self function "chosen_inline_result" filters.
Definition on_chosen_inline_result : OnUpdate :=
  λ self filters, on_update self "chosen_inline_result" filters.

Definition add_callback_query_handler : AddHandler :=
  λ self function filters, add_update_handler self function "callback_query" filters.
Definition on_callback_query : OnUpdate :=
  λ self filters, on_update self "callback_query" filters.

Definition add_shipping_query_handler : AddHandler :=
  λ self function filters, add_update_handler self function "shipping_query" filters.
Definition on_shipping_query : OnUpdate :=
  λ self filters, on_update self "shipping_query" filters.

Definition add_pre_checkout_query_handler : AddHandler :=
  λ self function filters,
    add_update_handler self function "pre_checkout_query" filters.
Definition on_pre_checkout_query : OnUpdate :=
  λ self filters, on_update self "pre_checkout_query" filters.

Definition add_poll_handler : AddHandler :=
  λ self function filters, add_update_handler self function "poll" filters.
Definition on_poll : OnUpdate :=
  λ self filters, on_update self "poll" filters.

Definition add_poll_answer_handler : AddHandler :=
  λ self function filters, add_update_handler self function "poll_answer" filters.
Definition on_poll_answer : OnUpdate :=
  λ self filters, on_update self "poll_answer" filters.

Definition add_my_chat_member_handler : AddHandler :=
  λ self function filters, add_update_handler self function "my_chat_member" filters.
Definition on_my_chat_member : OnUpdate :=
  λ self filters, on_update self "my_chat_member" filters.

Definition add_chat_member_handler : AddHandler :=
  λ self function filters, add_update_handler self function "chat_member" filters.
Definition on_chat_member : OnUpdate :=
  λ self filters, on_update self "chat_member" filters.

(** The typed helpers, in the order of the class body. *)
Definition add_handler_methods : list AddHandler :=
  [ add_message_handler; add_edited_message_handler; add_channel_post_handler;
    add_edited_channel_post_handler; add_inline_query_handler;
    add_chosen_inline_result_handler; add_callback_query_handler;
    add_shipping_query_handler; add_pre_checkout_query_handler;
    add_poll_handler; add_poll_answer_handler; add_my_chat_member_handler;
    add_chat_member_handler ].

Definition on_update_methods : list OnUpdate :=
  [ on_message; on_edited_message; on_channel_post; on_edited_channel_post;
    on_inline_query; on_chosen_inline_result; on_callback_query;
    on_shipping_query; on_pre_checkout_query; on_poll; on_poll_answer;
    on_my_chat_member; on_chat_member ].

(** ** Further sample middlewares *)

(** [async def m(bot, update, call_next): return] *)
Definition blocking : MiddlewareCallable := λ _ _, mret tt.

(** [async def m(bot, update, call_next): raise e] *)
Definition failing (e : exc) : MiddlewareCallable := λ _ _, raise e.

(** [async def m(bot, update, call_next): await call_next(bot, other)] *)
Definition substituting (other : Update) : MiddlewareCallable :=
  λ _ call_next, call_next other.

(** The kinds of [update] that are populated, with their handlers: what the
    fan-out goes through. *)
Definition populated_handlers (self : Bot) (update : Update) : list Handler :=
  update_types ≫= (λ ty, match getattr update ty with
                         | Some _ => handlers_for self ty
                         | None => []
                         end).

(** ** Polling: the identifier kept between requests *)

(** [last_received_update_id] after the loop has received [batches],
    starting from [last]: the identifier of the last update of the last
    batch that is not empty. *)
Definition last_after (batches : list (list Update)) (last : Z) : Z :=
  foldl (λ last updates, last_update_id updates last) last batches.

(** ** types.py: [ResponseParameters], [Error]; errors.py: [__str__] *)

Record ResponseParameters : Type := {
  migrate_to_chat_id : option Z;
  retry_after : option Z;
}.

Record Error : Type := {
  ok : bool;
  error_code : Z;
  description : string;
  parameters : option ResponseParameters;
}.

(** [bool(n)] for an [Optional[int]]: [None] and [0] are falsy. *)
Definition bool_optional_int (n : option Z) : bool :=
  match n with
  | Some z => negb (Z.eqb z 0)
  | None => false
  end.

(** What an f-string prints for an [Optional[int]]. *)
Definition format_optional_int (n : option Z) : string :=
  match n with
  | Some z => pretty z
  | None => "None"
  end.

(** [Error.text] *)
Definition Error_text (self : Error) : string :=
  let text := description self in
  match parameters self with
  | Some parameters =>
      let text :=
        if bool_optional_int (retry_after parameters)
        then text +:+ " Retry after: "
                  +:+ format_optional_int (retry_after parameters) +:+ "."
        else text in
      let text :=
        if bool_optional_int (migrate_to_chat_id parameters)
        then text +:+ " Migrate to Chat ID: "
                  +:+ format_optional_int (migrate_to_chat_id parameters) +:+ "."
        else text in
      text
  | None => text
  end.

(** [Error.raise_exception] *)
Definition Error_raise_exception {A} (self : Error) : outcome A :=
  Raised (TelegramException (error_code self) (Error_text self)).

(** [TelegramException.__str__] *)
Definition TelegramException___str__ (code : Z) (message : string) : string :=
  "[Error " +:+ pretty code +:+ "] " +:+ message.

(** ** bot_api_client.py: [__make_request] *)

(** The values of the [data] dict of a request: an [InputFile] with its
    path, or anything else, kept as its text. *)
Inductive FormValue : Type :=
| InputFile_ (path : string)
| Plain (v : string).

(** [isinstance(v, InputFile)] *)
Definition isinstance_InputFile (v : FormValue) : bool :=
  match v with InputFile_ _ => true | Plain _ => false end.

(** The [files] comprehension of the [as_form] branch: the file opened for
    every [InputFile] of [data], kept as its path. *)
Definition form_files (data : gmap string FormValue) : gmap string string :=
  omap (λ v, match v with InputFile_ path => Some path | Plain _ => None end) data.

(** The [data] comprehension of the [as_form] branch. *)
Definition form_data (data : gmap string FormValue) : gmap string FormValue :=
  map_imap (λ k v, Some (if negb (isinstance_InputFile v) then v
                         else Plain ("attach://" +:+ k))) data.

(** What the libraries do with the body of a response: [get_ok] is the
    truth of [response_json.get("ok")], [Error_parse_obj] and
    [Response_parse_obj] are the pydantic parsers, [None] standing for
    [pydantic.ValidationError]; the [result] of a parsed [Response] may be
    [None]. *)
Record Parsers (json R : Type) : Type := {
  get_ok : json → bool;
  Error_parse_obj : json → option Error;
  Response_parse_obj : json → option (option R);
}.
Arguments get_ok {json R} _ _.
Arguments Error_parse_obj {json R} _ _.
Arguments Response_parse_obj {json R} _ _.

(** An [httpx.Response]: [loads] is [ujson.loads(response.text)], [None]
    when the text is not JSON; [status_raises] tells whether
    [raise_for_status()] raises for the status. *)
Record HTTPResponse (json : Type) : Type := {
  loads : option json;
  is_error : bool;
  status_raises : bool;
}.
Arguments loads {json} _.
Arguments is_error {json} _.
Arguments status_raises {json} _.

(** What [__make_request] returns: the [result] of the parsed [Response],
    or the decoded body itself. *)
Inductive Returned_value (json R : Type) : Type :=
| Result (r : option R)
| Json (j : json).
Arguments Result {json R} r.
Arguments Json {json R} j.

(** The exceptions of the libraries, all subclasses of [Exception]. *)
Definition JSONDecodeError : exc := ValueError "ujson.JSONDecodeError".
Definition ValidationError : exc := Exception_ "pydantic.ValidationError".
Definition HTTPStatusError : exc := Exception_ "httpx.HTTPStatusError".

(** [response.raise_for_status()] *)
Definition raise_for_status {json} (response : HTTPResponse json) : outcome unit :=
  if status_raises response then Raised HTTPStatusError else Returned tt.

(** [try: return Error.parse_obj(response_json).raise_exception()
     except pydantic.ValidationError: response.raise_for_status()] *)
Definition raise_parsed_error {json R} (lib : Parsers json R)
    (response : HTTPResponse json) (response_json : json) : outcome unit :=
  match Error_parse_obj lib response_json with
  | Some error => Error_raise_exception error
  | None => raise_for_status response
  end.

(** [BotAPIClient.__make_request], from [ujson.loads(response.text)] on:
    what it does with the response to the request. *)
Definition make_request {json R} (lib : Parsers json R) (response_model : bool)
    (response : HTTPResponse json) : outcome (Returned_value json R) :=
  match loads response with
  | None => Raised JSONDecodeError
  | Some response_json =>
      let after_status : outcome unit :=
        if is_error response
        then raise_parsed_error lib response response_json
        else Returned tt in
      match after_status with
      | Raised e => Raised e
      | Returned _ =>
          if get_ok lib response_json
          then
            if response_model
            then
              match Response_parse_obj lib response_json with
              | Some result => Returned (Result result)
              | None => Raised ValidationError
              end
            else Returned (Json response_json)
          else
            match raise_parsed_error lib response response_json with
            | Raised e => Raised e
            | Returned _ => Returned (Json response_json)
            end
      end
  end.

(** A sample of the library side: bodies are kept as their text; the body
    [flood] parses as a flood-control error, the body [done] is an
    [ok] response whose result is 1. *)
Definition sample_lib : Parsers string Z :=
  {| get_ok := λ j, String.eqb j "done";
     Error_parse_obj := λ j,
       if String.eqb j "flood"
       then Some {| ok := false; error_code := 429;
                    description := "Too Many Requests";
                    parameters := Some {| migrate_to_chat_id := None;
                                          retry_after := Some 3 |} |}
       else None;
     Response_parse_obj := λ j,
       if String.eqb j "done" then Some (Some 1) else None |}.

(** * Properties *)

(** ** Polling *)

(** Every request of the loop asks for the identifier after the last one
    received. *)
Lemma polling_loop_first_offset self (updates : list Update) responses last :
  ∃ t, trace (polling_loop self (Returned updates :: responses) last)
       = get_updates_called (last + 1) 100 (polling_timeout self) :: t.
Proof.
  cbn. destruct (polling_loop self responses _) as [t r]. by eexists.
Qed.

(** The polling loop produces no dispatch event, whatever it fetches. *)
Lemma polling_loop_no_dispatch self responses last :
  forallb (λ ev, negb (is_dispatch ev)) (trace (polling_loop self responses last)) = true.
Proof.
  revert last. induction responses as [|r rs IH]; intros last; [done|].
  destruct r as [updates|e]; [|done].
  cbn.
  specialize (IH (if bool_decide (0 < length updates)%nat
                  then last_update_id updates last else last)).
  destruct (polling_loop self rs _) as [t [z|e]]; cbn in *; done.
Qed.

Lemma run_long_polling_no_dispatch self responses :
  forallb (λ ev, negb (is_dispatch ev)) (trace (run_long_polling self responses)) = true.
Proof.
  unfold run_long_polling.
  pose proof (polling_loop_no_dispatch self responses (-1)) as H.
  destruct (running self); [|done].
  destruct (polling_loop self responses (-1)) as [t r]; cbn in *.
  rewrite forallb_app, H. done.
Qed.

(** C1 (the code departs from the claim).  In polling mode a fetched batch
    is not handed to the dispatcher: with a handler registered for
    [message] and a fetch that returns one message update, [Bot.run] only
    fetches and sleeps, while the same batch delivered by the webhook
    invokes the handler. *)
Theorem C1_polling_drops_the_batch :
  ∃ bot h started,
    add_update_handler (Bot___init__ 0) (printing 1 "H") "message" None
      = Returned (bot, h)
    ∧ result (start bot) = Returned started
    ∧ trace (run bot [Returned [message_update 5]])
      = [ logger_info "Starting bot"; logger_info "Start polling updates";
          get_updates_called 0 100 0; sleep_called;
          logger_info "Stop polling"; logger_info "Stopping Bot...";
          logger_info "Stopping Bot..." ]
    ∧ called (trace (run bot [Returned [message_update 5]])) = []
    ∧ called (trace (on_webhook_received started [message_update 5]))
      = [ (handler_oid h, {[ "bot" := VBot ]}) ]
    ∧ (∀ self responses,
         forallb (λ ev, negb (is_dispatch ev))
                 (trace (run_long_polling self responses)) = true).
Proof.
  do 3 eexists. split; [reflexivity|]. split; [reflexivity|].
  split; [reflexivity|]. split; [reflexivity|]. split; [reflexivity|].
  apply run_long_polling_no_dispatch.
Qed.

(** C2 as stated fails: after the batch with identifiers 5 and 6 the next
    two requests carry offset 7, not 6. *)
Lemma C2_offsets_0_6_6_refuted :
  ¬ (let m := run_long_polling (set_running true (Bot___init__ 0))
                [ Returned [message_update 5; message_update 6];
                  Returned []; Returned [message_update 7] ] in
     offsets_sent (trace m) = [0; 6; 6] ∧ result m = Returned 7).
Proof. cbn. intros [H _]. discriminate H. Qed.

(** C2 (amended).  For the polling loop started from the initial sentinel,
    given successive fetch results with identifiers [5, 6], then none, then
    [7], the offsets of the three requests are 0, 7 and 7, and after the
    third call the last received identifier is 7. *)
Theorem C2_polling_offsets (self : Bot) (u5 u6 u7 : Update) :
  running self = true →
  update_id u5 = 5 → update_id u6 = 6 → update_id u7 = 7 →
  let m := run_long_polling self
             [ Returned [u5; u6]; Returned []; Returned [u7] ] in
  offsets_sent (trace m) = [0; 7; 7] ∧ result m = Returned 7.
Proof.
  intros Hrun H5 H6 H7. unfold run_long_polling. rewrite Hrun.
  cbn. unfold last_update_id. cbn. rewrite H6, H7. by split.
Qed.

(** The amended C2 on message updates 5, 6 and 7. *)
Lemma C2_polling_offsets_witness :
  let m := run_long_polling (set_running true (Bot___init__ 0))
             [ Returned [message_update 5; message_update 6];
               Returned []; Returned [message_update 7] ] in
  offsets_sent (trace m) = [0; 7; 7] ∧ result m = Returned 7.
Proof.
  apply (C2_polling_offsets (set_running true (Bot___init__ 0))
           (message_update 5) (message_update 6) (message_update 7));
    reflexivity.
Defined.

(** ** Registry *)

Lemma set_contains_fresh (s : list Handler) (h : Handler) :
  Forall (λ h', handler_oid h' ≠ handler_oid h) s → set_contains s h = false.
Proof.
  unfold set_contains. induction 1 as [|h' s Hne _ IH]; [done|].
  cbn. rewrite IH. unfold Handler___eq__.
  apply Nat.eqb_neq in Hne. rewrite Hne. by rewrite andb_false_r.
Qed.

Lemma set_add_fresh (s : list Handler) (h : Handler) :
  Forall (λ h', handler_oid h' ≠ handler_oid h) s → set_add s h = s ++ [h].
Proof. intros Hs. unfold set_add. by rewrite set_contains_fresh. Qed.

Lemma Bot___init___handlers (t : Z) (ty : string) :
  ty ∈ update_types → updates_handlers (Bot___init__ t) !! ty = Some [].
Proof.
  intros H. unfold update_types in H.
  repeat (apply elem_of_cons in H as [->|H]; [reflexivity|]).
  by apply elem_of_nil in H.
Qed.

Lemma handlers_for_set_handlers (self : Bot) (ty ty' : string) (s : list Handler) :
  handlers_for (set_handlers ty s self) ty'
  = if decide (ty = ty') then s else handlers_for self ty'.
Proof.
  unfold handlers_for, set_handlers; cbn.
  rewrite lookup_insert. by case_decide.
Qed.

(** What a successful registration returns. *)
Lemma add_update_handler_returned (self : Bot) f ty flt (s : list Handler) :
  running self = false → updates_handlers self !! ty = Some s →
  let h := {| handler_oid := allocated self; function := f;
              update_type := ty; filters := flt |} in
  ∃ bot, add_update_handler self f ty flt = Returned (bot, h)
         ∧ running bot = false
         ∧ updates_handlers bot = <[ty := set_add s h]> (updates_handlers self)
         ∧ middlewares bot = middlewares self
         ∧ allocated bot = S (allocated self).
Proof.
  intros Hrun Hs h. unfold add_update_handler. rewrite Hrun, Hs.
  eexists. split; [reflexivity|]. cbn. by rewrite Hrun.
Qed.

(** Registration on a running bot raises, and so does registration for an
    unknown kind. *)
Lemma add_update_handler_running (self : Bot) f ty flt :
  running self = true →
  ∃ msg, add_update_handler self f ty flt = Raised (RuntimeError msg).
Proof. intros H. unfold add_update_handler. rewrite H. by eexists. Qed.

Lemma add_middleware_running (self : Bot) m :
  running self = true → ∃ msg, add_middleware self m = Raised (RuntimeError msg).
Proof. intros H. unfold add_middleware. rewrite H. by eexists. Qed.

(** C3 (the code departs from the claim).  Registering the same callback
    twice for the same update kind leaves two entries for it: [Handler]
    objects hash by their function but are compared by identity, and every
    registration builds a new object. *)
Theorem C3_same_function_registered_twice (f : HandlerCallable) :
  ∃ bot1 h1 bot2 h2,
    add_update_handler (Bot___init__ 0) f "message" None = Returned (bot1, h1)
    ∧ add_update_handler bot1 f "message" None = Returned (bot2, h2)
    ∧ handlers_for bot2 "message" = [h1; h2]
    ∧ function h1 = f ∧ function h2 = f
    ∧ Handler___hash__ h1 = Handler___hash__ h2
    ∧ Handler___eq__ h1 h2 = false.
Proof.
  destruct (add_update_handler_returned (Bot___init__ 0) f "message" None [])
    as (bot1 & E1 & R1 & U1 & _ & A1); [done|done|].
  destruct (add_update_handler_returned bot1 f "message" None
              (set_add [] {| handler_oid := 0; function := f;
                             update_type := "message"; filters := None |}))
    as (bot2 & E2 & R2 & U2 & _ & A2); [done|by rewrite U1, lookup_insert_eq|].
  do 4 eexists. split; [exact E1|]. split; [exact E2|].
  split; [|by rewrite A1].
  unfold handlers_for. rewrite U2, lookup_insert_eq, A1. cbn.
  rewrite set_add_fresh; [done|].
  repeat constructor. cbn. lia.
Qed.

(** [remove_update_handler] does not read the running flag. *)
Lemma remove_update_handler_ignores_running (self : Bot) (h : Handler) (b : bool) :
  remove_update_handler (set_running b self) h
  = match remove_update_handler self h with
    | Returned self' => Returned (set_running b self')
    | Raised e => Raised e
    end.
Proof.
  unfold remove_update_handler. cbn.
  destruct (updates_handlers self !! update_type h) as [s|]; [|done].
  by destruct (set_remove s h).
Qed.

(** Distinct identities: members with the same identity are the same. *)
Lemma NoDup_oid_inj (s : list Handler) (h h' : Handler) :
  NoDup (handler_oid <$> s) → h ∈ s → h' ∈ s →
  handler_oid h = handler_oid h' → h = h'.
Proof.
  induction s as [|a s IH]; intros Hnd Hh Hh' Heq; [by apply elem_of_nil in Hh|].
  rewrite fmap_cons in Hnd. apply NoDup_cons in Hnd as [Ha Hnd].
  apply elem_of_cons in Hh as [->|Hh]; apply elem_of_cons in Hh' as [->|Hh'].
  - done.
  - destruct Ha. rewrite Heq. by apply list_elem_of_fmap_2.
  - destruct Ha. rewrite <- Heq. by apply list_elem_of_fmap_2.
  - by apply IH.
Qed.

(** Removing a member of a set of distinct objects succeeds, removes that
    member and keeps every other one. *)
Lemma set_remove_member (s : list Handler) (h : Handler) :
  NoDup (handler_oid <$> s) → h ∈ s →
  ∃ s', set_remove s h = Some s' ∧ ∀ h', h' ∈ s' ↔ h' ∈ s ∧ h' ≠ h.
Proof.
  intros Hnd Hin. unfold set_remove.
  assert (set_contains s h = true) as ->.
  { unfold set_contains. apply existsb_exists. exists h.
    split; [by apply list_elem_of_In|].
    unfold Handler___eq__. by rewrite !Nat.eqb_refl. }
  eexists. split; [reflexivity|]. intros h'.
  rewrite !list_elem_of_In, filter_In, negb_true_iff, andb_false_iff.
  rewrite <- !list_elem_of_In.
  unfold Handler___eq__, Handler___hash__. rewrite !Nat.eqb_neq.
  split.
  - intros [H1 H2]; split; [done|]. intros ->. by destruct H2.
  - intros [H1 H2]. split; [done|]. right. intros Heq. apply H2.
    by apply (NoDup_oid_inj s).
Qed.

(** Removing a handler that is not a member raises [ValueError]. *)
Lemma remove_update_handler_absent (self : Bot) (h : Handler) :
  Forall (λ h', handler_oid h' ≠ handler_oid h) (handlers_for self (update_type h)) →
  ∃ msg, remove_update_handler self h = Raised (ValueError msg).
Proof.
  intros Hs. unfold remove_update_handler, handlers_for in *.
  destruct (updates_handlers self !! update_type h) as [s|]; [|by eexists].
  cbn in Hs. unfold set_remove. rewrite set_contains_fresh by done. by eexists.
Qed.

(** C8 (the code departs from the claim).  Unregistering after [start]
    does not fail: the handler registered before the start is removed from
    the running bot, where a registration is refused. *)
Theorem C8_remove_after_start (f : HandlerCallable) :
  ∃ bot h started stripped,
    add_update_handler (Bot___init__ 0) f "message" None = Returned (bot, h)
    ∧ result (start bot) = Returned started
    ∧ running started = true
    ∧ handlers_for started "message" = [h]
    ∧ remove_update_handler started h = Returned stripped
    ∧ running stripped = true
    ∧ handlers_for stripped "message" = []
    ∧ (∃ msg, add_update_handler started f "message" None
              = Raised (RuntimeError msg)).
Proof.
  destruct (add_update_handler_returned (Bot___init__ 0) f "message" None [])
    as (bot & Hadd & Hrun & Hu & _ & _); [done..|].
  cbn [allocated Bot___init__] in Hadd, Hu.
  set (h := {| handler_oid := 0; function := f;
               update_type := "message"; filters := None |}) in *.
  set (started := set_running true (prepare_middlewares_handlers bot)).
  assert (updates_handlers started !! "message" = Some [h]) as Hl
    by (cbn; by rewrite Hu, lookup_insert_eq).
  exists bot, h, started, (set_handlers "message" [] started).
  split; [exact Hadd|]. split; [done|]. split; [done|].
  split; [unfold handlers_for; by rewrite Hl|].
  split.
  { unfold remove_update_handler. cbn [update_type h]. rewrite Hl.
    unfold set_remove, set_contains, Handler___eq__. cbn.
    by rewrite !Nat.eqb_refl. }
  split; [done|].
  split; [unfold handlers_for; cbn; by rewrite lookup_insert_eq|].
  by apply add_update_handler_running.
Qed.

(** Whatever the running flag, removing a registered handler succeeds and
    removes that handler only. *)
Lemma remove_update_handler_member (self : Bot) (h : Handler) (s : list Handler) :
  updates_handlers self !! update_type h = Some s →
  NoDup (handler_oid <$> s) → h ∈ s →
  ∃ s', remove_update_handler self h
        = Returned (set_handlers (update_type h) s' self)
        ∧ ∀ h', h' ∈ s' ↔ h' ∈ s ∧ h' ≠ h.
Proof.
  intros Hs Hnd Hin. unfold remove_update_handler. rewrite Hs.
  destruct (set_remove_member s h Hnd Hin) as (s' & -> & Hs').
  by exists s'.
Qed.

(** ** Filter evaluation: [Handler.__call__] *)

Lemma called_call_function (h : Handler) (update : SomeUpdate) :
  called (trace (call_function h update)) = [(handler_oid h, EXTRA update)].
Proof.
  unfold call_function. cbn.
  destruct (fn_body (function h) update) as [labels r]. cbn.
  induction labels as [|l labels IH]; [done|]. cbn in *. done.
Qed.

(** The dict of the sub-update after the call: what the filter contributed,
    over what was there. *)
Lemma Handler___call___EXTRA (h : Handler) (update : SomeUpdate) :
  EXTRA (Handler___call__ h update).1 = own_context h update ∪ EXTRA update.
Proof.
  unfold Handler___call__, own_context.
  destruct (filters h) as [f|]; cbn; [|by rewrite (left_id_L ∅ (∪))].
  destruct (f update) as [r|e]; cbn; [|by rewrite (left_id_L ∅ (∪))].
  destruct r as [|b|z|s|d]; cbn.
  - by rewrite (left_id_L ∅ (∪)).
  - destruct b; cbn; by rewrite (left_id_L ∅ (∪)).
  - destruct (Z.eqb z 0); cbn; by rewrite (left_id_L ∅ (∪)).
  - destruct (String.eqb s ""); cbn; by rewrite (left_id_L ∅ (∪)).
  - case_bool_decide as Hd; cbn; [|done].
    by rewrite Hd, (left_id_L ∅ (∪)).
Qed.

(** C6.  With a filter present: a falsy result returns without calling the
    function and leaves the sub-update as it was; a truthy dict is merged
    into [EXTRA], its keys overwriting, and the function is called on the
    merged context; any other truthy result calls the function on the
    unchanged sub-update.  Without a filter the function is always
    called. *)
Theorem C6_filter_outcomes (h : Handler) (update : SomeUpdate) :
  (∀ f r, filters h = Some f → f update = Returned r → bool_ r = false →
     Handler___call__ h update = (update, mret tt))
  ∧ (∀ f d, filters h = Some f → f update = Returned (Dict_ d) →
       bool_ (Dict_ d) = true →
       let merged := set_EXTRA (d ∪ EXTRA update) update in
       Handler___call__ h update = (merged, call_function h merged)
       ∧ (∀ k v, d !! k = Some v → EXTRA merged !! k = Some v)
       ∧ (∀ k, d !! k = None → EXTRA merged !! k = EXTRA update !! k))
  ∧ (∀ f r, filters h = Some f → f update = Returned r → bool_ r = true →
       isinstance_dict r = false →
       Handler___call__ h update = (update, call_function h update))
  ∧ (filters h = None →
       Handler___call__ h update = (update, call_function h update))
  ∧ (∀ update', called (trace (call_function h update'))
                = [(handler_oid h, EXTRA update')]).
Proof.
  unfold Handler___call__. split; [|split; [|split; [|split]]].
  - by intros f r -> -> ->.
  - intros f d Hf Hr Hb. rewrite Hf, Hr, Hb. cbn. split; [done|]. split.
    + intros k v Hk. by apply lookup_union_Some_l.
    + intros k Hk. by rewrite lookup_union_r.
  - intros f r -> -> -> Hd. cbn. by destruct r.
  - by intros ->.
  - apply called_call_function.
Qed.

(** C6 on a falsy result, a dict, an integer and no filter. *)
Lemma C6_filter_outcomes_witness :
  let su := {| payload := "hello"; EXTRA := {[ "k" := VInt 0 ]} |} in
  let h flt := {| handler_oid := 0; function := printing 1 "H";
                  update_type := "message"; filters := flt |} in
  Handler___call__ (h (Some (λ _, Returned (Bool_ false)))) su = (su, mret tt)
  ∧ EXTRA (Handler___call__
             (h (Some (λ _, Returned (Dict_ {[ "k" := VInt 1 ]})))) su).1
    !! "k" = Some (VInt 1)
  ∧ Handler___call__ (h (Some (λ _, Returned (Int_ 3)))) su
    = (su, call_function (h (Some (λ _, Returned (Int_ 3)))) su)
  ∧ Handler___call__ (h None) su = (su, call_function (h None) su).
Proof.
  intros su h. split; [|split; [|split]].
  - apply (proj1 (C6_filter_outcomes (h (Some (λ _, Returned (Bool_ false)))) su)
             (λ _, Returned (Bool_ false)) (Bool_ false));
      reflexivity.
  - pose proof (proj1 (proj2 (C6_filter_outcomes
                  (h (Some (λ _, Returned (Dict_ {[ "k" := VInt 1 ]})))) su))
                  (λ _, Returned (Dict_ {[ "k" := VInt 1 ]})) {[ "k" := VInt 1 ]}
                  eq_refl eq_refl eq_refl) as [E [Hk _]].
    rewrite E. apply Hk. reflexivity.
  - apply (proj1 (proj2 (proj2 (C6_filter_outcomes
                  (h (Some (λ _, Returned (Int_ 3)))) su)))
             (λ _, Returned (Int_ 3)) (Int_ 3));
      reflexivity.
  - apply (proj1 (proj2 (proj2 (proj2 (C6_filter_outcomes (h None) su)))));
      reflexivity.
Defined.

(** ** The guarded call: [__call_handler] *)

Lemma call_handler_update (h : Handler) (update : SomeUpdate) :
  (call_handler h update).1 = (Handler___call__ h update).1.
Proof. unfold call_handler. by destruct (Handler___call__ h update). Qed.

(** What the guard does with the three ways [Handler.__call__] can end. *)
Lemma call_handler_returned (h : Handler) (update : SomeUpdate) :
  result (Handler___call__ h update).2 = Returned tt →
  (call_handler h update).2
  = (handler_awaited (handler_oid h) :: trace (Handler___call__ h update).2,
     Returned tt).
Proof.
  unfold call_handler. destruct (Handler___call__ h update) as [u [t r]].
  cbn. by intros ->.
Qed.


Lemma call_handler_escaped (h : Handler) (update : SomeUpdate) (e : exc) :
  result (Handler___call__ h update).2 = Raised e →
  isinstance_Exception e = false →
  (call_handler h update).2
  = (handler_awaited (handler_oid h) :: trace (Handler___call__ h update).2,
     Raised e).
Proof.
  unfold call_handler. destruct (Handler___call__ h update) as [u [t r]].
  cbn. intros -> He. cbn. by rewrite He.
Qed.

(** A filter that raises ends [Handler.__call__] before the function. *)
Lemma Handler___call___filter_raised (h : Handler) f (update : SomeUpdate) e :
  filters h = Some f → f update = Raised e →
  Handler___call__ h update = (update, raise e).
Proof. unfold Handler___call__. by intros -> ->. Qed.



(** An exception that is not an [Exception], raised by the function or by
    the filter, passes the guard and is not logged. *)
Lemma call_handler_function_escaped (h : Handler) (update : SomeUpdate) labels e :
  filters h = None → fn_body (function h) update = (labels, Raised e) →
  isinstance_Exception e = false →
  result (call_handler h update).2 = Raised e
  ∧ errors_logged (trace (call_handler h update).2) = [].
Proof.
  intros Hf Hb He.
  rewrite (call_handler_escaped h update e); [|
    unfold Handler___call__, call_function; by rewrite Hf, Hb|done].
  split; [done|]. unfold Handler___call__, call_function. rewrite Hf, Hb. cbn.
  clear Hb. induction labels as [|l labels IH]; [done|]. cbn. done.
Qed.

Lemma call_handler_filter_escaped (h : Handler) f (update : SomeUpdate) e :
  filters h = Some f → f update = Raised e → isinstance_Exception e = false →
  (call_handler h update)
  = (update, ([handler_awaited (handler_oid h)], Raised e)).
Proof.
  intros Hf Hr He. unfold call_handler.
  rewrite (Handler___call___filter_raised h f update e) by done.
  cbn. by rewrite He.
Qed.

(** The fan-out and the batch entry point return, whatever the handlers
    do. *)
Lemma call_handlers_returns (self : Bot) (update : Update) :
  result (call_handlers self update) = Returned tt.
Proof.
  unfold call_handlers. destruct (collect_tasks self update) as [u tasks].
  by destruct (gather tasks u) as [u' [t rs]].
Qed.

Lemma handle_updates_returns (self : Bot) (updates : list Update) :
  result (handle_updates self updates) = Returned tt.
Proof. done. Qed.



(** ** Fan-out: [__call_handlers] *)

Lemma gather_app (ts1 ts2 : list Task) (update : Update) :
  gather (ts1 ++ ts2) update
  = let '(update1, (t1, rs1)) := gather ts1 update in
    let '(update2, (t2, rs2)) := gather ts2 update1 in
    (update2, (t1 ++ t2, rs1 ++ rs2)).
Proof.
  revert update. induction ts1 as [|task ts1 IH]; intros update; cbn.
  - by destruct (gather ts2 update) as [u [t rs]].
  - destruct (run_task task update) as [u1 [t r]].
    rewrite IH. destruct (gather ts1 u1) as [u2 [t1 rs1]].
    destruct (gather ts2 u2) as [u3 [t2 rs2]]. by rewrite app_assoc.
Qed.

(** The loop over the kinds, for an update with one populated field. *)
Lemma collect_loop_absent (self : Bot) (keys : list string) uid ty su tasks :
  ty ∉ keys →
  foldl (collect_step self) ({| update_id := uid; fields := {[ ty := su ]} |}, tasks) keys
  = ({| update_id := uid; fields := {[ ty := su ]} |}, tasks).
Proof.
  induction keys as [|k keys IH]; intros Hk; [done|].
  apply not_elem_of_cons in Hk as [Hne Hk]. cbn. unfold getattr. cbn.
  rewrite lookup_singleton_ne by done. by apply IH.
Qed.

Lemma collect_loop_present (self : Bot) (keys : list string) uid ty su tasks :
  NoDup keys → ty ∈ keys →
  foldl (collect_step self) ({| update_id := uid; fields := {[ ty := su ]} |}, tasks) keys
  = ({| update_id := uid; fields := {[ ty := with_bot su ]} |},
     tasks ++ tasks_for ty (handlers_for self ty)).
Proof.
  induction keys as [|k keys IH]; intros Hnd Hin; [by apply elem_of_nil in Hin|].
  apply NoDup_cons in Hnd as [Hk Hnd].
  cbn. unfold getattr. cbn.
  destruct (decide (k = ty)) as [->|Hne].
  - rewrite lookup_singleton_eq. unfold set_field. cbn.
    rewrite insert_singleton_eq. by apply collect_loop_absent.
  - rewrite lookup_singleton_ne by done.
    apply elem_of_cons in Hin as [->|Hin]; [done|]. by apply IH.
Qed.

Lemma NoDup_update_types : NoDup update_types.
Proof. apply (bool_decide_unpack _). by vm_compute. Qed.

Lemma collect_tasks_single (self : Bot) uid ty su :
  ty ∈ update_types →
  collect_tasks self {| update_id := uid; fields := {[ ty := su ]} |}
  = ({| update_id := uid; fields := {[ ty := with_bot su ]} |},
     tasks_for ty (handlers_for self ty)).
Proof.
  intros Hty. unfold collect_tasks.
  by rewrite collect_loop_present by (done || apply NoDup_update_types).
Qed.


Lemma getattr_set_field ty su (update : Update) :
  getattr (set_field ty su update) ty = Some su.
Proof. unfold getattr, set_field. cbn. apply lookup_insert_eq. Qed.

Lemma set_field_set_field ty su su' (update : Update) :
  set_field ty su (set_field ty su' update) = set_field ty su update.
Proof. unfold set_field. cbn. by rewrite insert_insert_eq. Qed.


(** The shape of the trace of a guarded call: the entry, then the call of
    the function and what it prints if the filter let it through, then the
    log entry if an [Exception] was caught. *)
Lemma Handler___call___trace (h : Handler) (update : SomeUpdate) :
  ∃ (passed : bool) labels,
    trace (Handler___call__ h update).2
    = if passed
      then function_called (handler_oid h) (fn_id (function h))
             (EXTRA (Handler___call__ h update).1) :: (Out <$> labels)
      else [].
Proof.
  unfold Handler___call__, call_function.
  destruct (filters h) as [f|].
  - destruct (f update) as [r|e]; [|by exists false, []].
    destruct (negb (bool_ r)); [by exists false, []|]. cbn.
    destruct (fn_body _ _) as [labels r']. by exists true, labels.
  - cbn. destruct (fn_body _ _) as [labels r']. by exists true, labels.
Qed.

Lemma call_handler_trace (h : Handler) (update : SomeUpdate) :
  ∃ (passed : bool) labels errs,
    trace (call_handler h update).2
    = handler_awaited (handler_oid h)
      :: (if passed
          then function_called (handler_oid h) (fn_id (function h))
                 (EXTRA (call_handler h update).1) :: (Out <$> labels)
          else [])
      ++ (logger_error (handler_oid h) <$> errs).
Proof.
  destruct (Handler___call___trace h update) as (passed & labels & E).
  rewrite call_handler_update. exists passed, labels.
  unfold call_handler.
  destruct (Handler___call__ h update) as [u [t [[]|e]]]; cbn in *.
  - exists []. by rewrite E, app_nil_r.
  - destruct (isinstance_Exception e); cbn.
    + exists [e]. by rewrite E.
    + exists []. by rewrite E, app_nil_r.
Qed.

Lemma awaited_call_handler (h : Handler) (update : SomeUpdate) :
  awaited (trace (call_handler h update).2) = [handler_oid h].
Proof.
  destruct (call_handler_trace h update) as (passed & labels & errs & ->).
  unfold awaited. cbn. rewrite omap_app. f_equal.
  assert (omap (λ ev, match ev with handler_awaited h0 => Some h0 | _ => None end)
            (logger_error (handler_oid h) <$> errs) = []) as ->
    by (induction errs; done).
  rewrite app_nil_r. destruct passed; [|done]. cbn.
  induction labels; done.
Qed.

Lemma called_call_handler (h : Handler) (update : SomeUpdate) :
  ∃ passed : bool,
    called (trace (call_handler h update).2)
    = if passed then [(handler_oid h, EXTRA (call_handler h update).1)] else [].
Proof.
  destruct (call_handler_trace h update) as (passed & labels & errs & ->).
  exists passed. unfold called. cbn. rewrite omap_app.
  assert (omap (λ ev, match ev with
                      | function_called h0 _ extra => Some (h0, extra)
                      | _ => None
                      end)
            (logger_error (handler_oid h) <$> errs) = []) as ->
    by (induction errs; done).
  rewrite app_nil_r. destruct passed; [|done]. cbn. f_equal.
  induction labels; done.
Qed.

Lemma awaited_app (t1 t2 : list Event) : awaited (t1 ++ t2) = awaited t1 ++ awaited t2.
Proof. apply omap_app. Qed.

Lemma called_app (t1 t2 : list Event) : called (t1 ++ t2) = called t1 ++ called t2.
Proof. apply omap_app. Qed.






(** Consequences of the registry invariant. *)
Lemma NoDup_fmap_bind_parts {K A B} (f : A → B) (g : K → list A) (keys : list K) :
  NoDup (f <$> (keys ≫= g)) →
  (∀ k, k ∈ keys → NoDup (f <$> g k))
  ∧ (∀ k k' a a', k ∈ keys → k' ∈ keys → k ≠ k' →
       a ∈ g k → a' ∈ g k' → f a ≠ f a').
Proof.
  induction keys as [|k0 keys IH]; intros Hnd.
  - split; intros *; intros H; by apply elem_of_nil in H.
  - rewrite bind_cons, fmap_app in Hnd.
    apply NoDup_app in Hnd as (H0 & Hdisj & Hrest).
    destruct (IH Hrest) as [IH1 IH2]. split.
    + intros k [->|Hk]%elem_of_cons; [done|by apply IH1].
    + intros k k' a a' [->|Hk]%elem_of_cons [->|Hk']%elem_of_cons Hne Ha Ha'.
      * done.
      * intros Heq. apply (Hdisj (f a)); [by apply list_elem_of_fmap_2|].
        rewrite Heq. apply list_elem_of_fmap_2, list_elem_of_bind. eauto.
      * intros Heq. apply (Hdisj (f a')); [by apply list_elem_of_fmap_2|].
        rewrite <- Heq. apply list_elem_of_fmap_2, list_elem_of_bind. eauto.
      * by apply (IH2 k k').
Qed.

Lemma registry_wf_NoDup (self : Bot) ty :
  registry_wf self → ty ∈ update_types →
  NoDup (handler_oid <$> handlers_for self ty).
Proof.
  intros [Hnd _] Hty.
  by apply (NoDup_fmap_bind_parts handler_oid (handlers_for self) update_types).
Qed.




(** ** The registry invariant is established and maintained *)

Lemma registry_wf_init (t : Z) : registry_wf (Bot___init__ t).
Proof.
  assert (all_handlers (Bot___init__ t) = []) as E by reflexivity.
  unfold registry_wf. rewrite E. split; [apply NoDup_nil_2|done].
Qed.

Lemma bind_insert_Permutation {A} (g : string → list A) (keys : list string)
    (ty : string) (a : A) :
  NoDup keys →
  keys ≫= (λ k, if decide (ty = k) then g k ++ [a] else g k)
  ≡ₚ (if decide (ty ∈ keys) then [a] else []) ++ (keys ≫= g).
Proof.
  induction keys as [|k keys IH]; intros Hnd; [done|].
  apply NoDup_cons in Hnd as [Hk Hnd]. rewrite !bind_cons, (IH Hnd).
  destruct (decide (ty = k)) as [->|Hne].
  - destruct (decide (k ∈ keys)); [done|].
    destruct (decide (k ∈ k :: keys)) as [_|Hn]; [|destruct Hn; left].
    cbn. by rewrite <- Permutation_cons_append.
  - destruct (decide (ty ∈ keys)) as [Hin|Hnin];
      destruct (decide (ty ∈ k :: keys)) as [Hin'|Hnin'].
    + cbn. by rewrite Permutation_middle.
    + destruct Hnin'. by right.
    + apply elem_of_cons in Hin' as [?|?]; done.
    + done.
Qed.

Lemma registry_wf_allocated (self : Bot) ty h :
  registry_wf self → ty ∈ update_types → h ∈ handlers_for self ty →
  (handler_oid h < allocated self)%nat.
Proof.
  intros [_ Hlt] Hty Hh. rewrite Forall_forall in Hlt. apply Hlt.
  unfold all_handlers. apply list_elem_of_bind. eauto.
Qed.

(** A registration that returns keeps the invariant: the new handler is a
    new object. *)
Lemma registry_wf_add_update_handler (self bot : Bot) f ty flt h :
  add_update_handler self f ty flt = Returned (bot, h) →
  registry_wf self → registry_wf bot.
Proof.
  unfold add_update_handler.
  destruct (running self); [done|].
  destruct (updates_handlers self !! ty) as [s|] eqn:Hs; [|done].
  intros [= <- <-] Hwf.
  set (h := {| handler_oid := allocated self; function := f;
               update_type := ty; filters := flt |}).
  set (bot := {| running := _; updates_handlers := _; allocated := _ |}).
  assert (∀ k, handlers_for bot k
               = if decide (ty = k) then set_add s h else handlers_for self k) as Hfor.
  { intros k. unfold handlers_for, bot. cbn. rewrite lookup_insert. by case_decide. }
  assert (all_handlers bot
          ≡ₚ (if decide (ty ∈ update_types) then [h] else []) ++ all_handlers self)
    as Hperm.
  { unfold all_handlers.
    destruct (decide (ty ∈ update_types)) as [Hty|Hty].
    - assert (set_add s h = handlers_for self ty ++ [h]) as Hadd.
      { unfold handlers_for at 1. rewrite Hs. cbn.
        apply set_add_fresh. rewrite Forall_forall. intros h' Hh'.
        assert (handler_oid h' < allocated self)%nat; [|cbn; lia].
        apply (registry_wf_allocated self ty); [done..|].
        unfold handlers_for. by rewrite Hs. }
      rewrite (list_bind_ext (handlers_for bot)
                 (λ k, if decide (ty = k) then handlers_for self k ++ [h]
                       else handlers_for self k) update_types update_types);
        [| |done].
      + rewrite bind_insert_Permutation by apply NoDup_update_types.
        by rewrite decide_True.
      + intros k. rewrite Hfor. case_decide; [by subst|done].
    - rewrite app_nil_l.
      rewrite (Forall_bind_ext (handlers_for bot) (handlers_for self)); [done|].
      rewrite Forall_forall. intros k Hk. rewrite Hfor.
      case_decide; [by subst|done]. }
  destruct Hwf as [Hnd Hlt]. unfold registry_wf. rewrite Hperm. cbn [allocated bot].
  destruct (decide (ty ∈ update_types)) as [Hty|Hty]; cbn.
  - split.
    + apply NoDup_cons. split; [|done].
      intros (h' & Heq & Hh')%list_elem_of_fmap.
      rewrite Forall_forall in Hlt. specialize (Hlt h' Hh'). cbn in Heq. lia.
    + apply Forall_cons. split; [cbn; lia|].
      eapply Forall_impl; [exact Hlt|]. cbn. intros; lia.
  - split; [done|]. eapply Forall_impl; [exact Hlt|]. cbn. intros; lia.
Qed.

Lemma registry_wf_set_running (self : Bot) (b : bool) :
  registry_wf self → registry_wf (set_running b self).
Proof. done. Qed.

Lemma registry_wf_start (self started : Bot) :
  result (start self) = Returned started → registry_wf self → registry_wf started.
Proof. by intros [= <-]. Qed.

Lemma List_filter_sublist {A} (p : A → bool) (l : list A) :
  List.filter p l `sublist_of` l.
Proof.
  induction l as [|a l IH]; [done|]. cbn.
  destruct (p a); [by apply sublist_skip|by apply sublist_cons].
Qed.

Lemma bind_sublist_pointwise {K A} (g g' : K → list A) (keys : list K) :
  (∀ k, g' k `sublist_of` g k) → keys ≫= g' `sublist_of` keys ≫= g.
Proof.
  intros Hg. induction keys as [|k keys IH]; [done|].
  rewrite !bind_cons. by apply sublist_app.
Qed.

(** A removal that returns keeps the invariant. *)
Lemma registry_wf_remove_update_handler (self bot : Bot) (h : Handler) :
  remove_update_handler self h = Returned bot →
  registry_wf self → registry_wf bot.
Proof.
  unfold remove_update_handler.
  destruct (updates_handlers self !! update_type h) as [s|] eqn:Hs; [|done].
  unfold set_remove. destruct (set_contains s h); [|done].
  intros [= <-] [Hnd Hlt].
  assert (all_handlers (set_handlers (update_type h)
                          (List.filter
                             (λ h', negb (Nat.eqb (Handler___hash__ h') (Handler___hash__ h)
                                          && Handler___eq__ h' h)) s) self)
          `sublist_of` all_handlers self) as Hsub.
  { unfold all_handlers. apply bind_sublist_pointwise. intros k.
    rewrite handlers_for_set_handlers. case_decide as Hk; [|done].
    subst k. unfold handlers_for. rewrite Hs. cbn. apply List_filter_sublist. }
  split.
  - apply (sublist_NoDup _ (handler_oid <$> all_handlers self)); [exact Hnd|].
    by apply fmap_sublist.
  - rewrite Forall_forall in Hlt |- *. intros h' Hh'. cbn.
    apply Hlt. by eapply elem_of_sublist.
Qed.

Lemma registry_wf_add_middleware (self bot : Bot) (m : MiddlewareCallable) :
  add_middleware self m = Returned bot → registry_wf self → registry_wf bot.
Proof.
  unfold add_middleware. destruct (running self); [done|]. by intros [= <-].
Qed.

Lemma registry_wf_stop (self stopped : Bot) :
  result (stop self) = Returned stopped → registry_wf self → registry_wf stopped.
Proof. by intros [= <-]. Qed.

(** Every bot that the operations produce satisfies the invariant. *)
Lemma reachable_registry_wf (self : Bot) : reachable self → registry_wf self.
Proof.
  induction 1 as [t | self f ty flt bot h _ IH Hadd | self h bot _ IH Hrm
                 | self m bot _ IH Hadd | self bot _ IH Hst | self bot _ IH Hst].
  - apply registry_wf_init.
  - by eapply registry_wf_add_update_handler.
  - by eapply registry_wf_remove_update_handler.
  - by eapply registry_wf_add_middleware.
  - by eapply registry_wf_start.
  - by eapply registry_wf_stop.
Qed.

(** ** One sub-update, one [EXTRA], all the handlers of the kind *)

Lemma call_handler_EXTRA (h : Handler) (update : SomeUpdate) :
  EXTRA (call_handler h update).1 = own_context h update ∪ EXTRA update.
Proof. rewrite call_handler_update. apply Handler___call___EXTRA. Qed.

(** A guarded call never removes a key. *)
Lemma call_handler_keeps_keys (h : Handler) (update : SomeUpdate) k :
  is_Some (EXTRA update !! k) → is_Some (EXTRA (call_handler h update).1 !! k).
Proof.
  intros Hk. rewrite call_handler_EXTRA, lookup_union_is_Some. by right.
Qed.






(** ** Middleware chain *)

(** The chain that [__handle_update] builds from the reversed list is the
    nesting of the middlewares in registration order. *)
Lemma chain_rev (k : Update → M unit) (ms : list MiddlewareCallable) :
  foldl (λ (call_next : Update → M unit) (m : MiddlewareCallable),
           (λ update, m update call_next)) k (rev ms)
  = foldr (λ (m : MiddlewareCallable) (call_next : Update → M unit),
             (λ update, m update call_next)) k ms.
Proof.
  induction ms as [|m ms IH]; [done|].
  cbn. by rewrite foldl_app, IH.
Qed.

(** After [start], a dispatch runs the middlewares in registration order
    around the fan-out; without middlewares it is the fan-out. *)
Lemma handle_update_chain (self : Bot) (update : Update) :
  prepared_middlewares self = rev (middlewares self) →
  handle_update self update
  = foldr (λ (m : MiddlewareCallable) (call_next : Update → M unit),
             (λ update, m update call_next))
          (λ _, call_handlers self update) (middlewares self) update.
Proof.
  intros Hprep. unfold handle_update. rewrite Hprep.
  case_bool_decide as Hlen.
  - rewrite length_rev in Hlen. by destruct (middlewares self).
  - by rewrite chain_rev.
Qed.

Lemma start_prepares (self started : Bot) :
  result (start self) = Returned started →
  running started = true
  ∧ middlewares started = middlewares self
  ∧ prepared_middlewares started = rev (middlewares self)
  ∧ updates_handlers started = updates_handlers self.
Proof. by intros [= <-]. Qed.

(** What a successful [add_middleware] returns. *)
Lemma add_middleware_returned (self bot : Bot) (m : MiddlewareCallable) :
  add_middleware self m = Returned bot →
  running self = false
  ∧ running bot = false
  ∧ middlewares bot = middlewares self ++ [m]
  ∧ updates_handlers bot = updates_handlers self.
Proof.
  unfold add_middleware. destruct (running self) eqn:Hrun; [done|].
  by intros [= <-].
Qed.

(** C5.  With middleware A registered before B, a dispatch calls A with a
    continuation that calls B with the fan-out as continuation: the first
    registered middleware is outermost and the last one wraps the fan-out
    directly.  With tracing middlewares and a terminal handler H the run
    prints A-enter, B-enter, H, B-exit, A-exit. *)
Theorem C5_middleware_order (self bot1 bot2 started : Bot)
    (A B : MiddlewareCallable) (update : Update) :
  middlewares self = [] →
  add_middleware self A = Returned bot1 →
  add_middleware bot1 B = Returned bot2 →
  result (start bot2) = Returned started →
  handle_update started update
  = A update (λ update', B update' (λ _, call_handlers started update))
  ∧ (∀ a b hname fn uid su,
       A = tracing_middleware a → B = tracing_middleware b →
       fields update = {[ "message" := su ]} →
       handlers_for self "message"
       = [ {| handler_oid := uid; function := printing fn hname;
              update_type := "message"; filters := None |} ] →
       outs (trace (handle_update started update))
       = [ a +:+ "-enter"; b +:+ "-enter"; hname; b +:+ "-exit"; a +:+ "-exit" ]).
Proof.
  intros Hms HA HB Hstart.
  apply add_middleware_returned in HA as (_ & _ & HmA & HuA).
  apply add_middleware_returned in HB as (_ & _ & HmB & HuB).
  apply start_prepares in Hstart as (_ & Hm & Hprep & Hu).
  rewrite HmB, HmA, Hms in Hm, Hprep. cbn [app] in Hm, Hprep.
  assert (handle_update started update
          = A update (λ update', B update' (λ _, call_handlers started update)))
    as E.
  { rewrite handle_update_chain by (by rewrite Hm, Hprep). by rewrite Hm. }
  split; [exact E|].
  intros a b hname fn uid su -> -> Hfields Hhs. rewrite E.
  destruct update as [i flds]. cbn in Hfields. subst flds.
  assert (call_handlers started {| update_id := i; fields := {[ "message" := su ]} |}
          = ([ handler_awaited uid;
               function_called uid fn (<["bot" := VBot]> (EXTRA su));
               Out hname ], Returned tt)) as Hfan.
  { unfold call_handlers. rewrite collect_tasks_single
      by (apply (bool_decide_unpack _); vm_compute; exact I).
    assert (handlers_for started "message" = handlers_for self "message") as ->
      by (unfold handlers_for; by rewrite Hu, HuB, HuA).
    rewrite Hhs. cbn. unfold getattr. cbn. by rewrite lookup_singleton_eq. }
  unfold tracing_middleware. rewrite Hfan. reflexivity.
Qed.

(** C5 on tracing middlewares A and B and a handler that prints H. *)
Lemma C5_middleware_order_witness :
  let self := register_all (Bot___init__ 0) [(printing 1 "H", None)] in
  let A := tracing_middleware "A" in
  let B := tracing_middleware "B" in
  let started := started_bot (with_middlewares self [A; B]) in
  outs (trace (handle_update started (message_update 5)))
  = [ "A-enter"; "B-enter"; "H"; "B-exit"; "A-exit" ].
Proof.
  intros self A B started.
  apply (proj2 (C5_middleware_order self (with_middlewares self [A])
                  (with_middlewares self [A; B]) started A B (message_update 5)
                  eq_refl eq_refl eq_refl eq_refl)
           "A" "B" "H" 1%nat 0%nat {| payload := "hello"; EXTRA := ∅ |});
    reflexivity.
Defined.

(** * Further properties *)

(** ** Registration on reachable bots *)

(** The registry of a reachable bot has exactly the thirteen kinds as
    keys. *)
Lemma reachable_kinds (self : Bot) (ty : string) :
  reachable self → is_Some (updates_handlers self !! ty) ↔ ty ∈ update_types.
Proof.
  induction 1 as [t | self f k flt bot h _ IH Hadd | self h bot _ IH Hrm
                 | self m bot _ IH Hadd | self bot _ IH Hst | self bot _ IH Hst].
  - split.
    + intros [s Hs]. apply elem_of_list_to_map_2 in Hs.
      apply list_elem_of_fmap in Hs as (k & [= -> _] & Hk). done.
    + intros Hty. rewrite Bot___init___handlers by done. by eexists.
  - unfold add_update_handler in Hadd. destruct (running self); [done|].
    destruct (updates_handlers self !! k) as [s|] eqn:Hs; [|done].
    injection Hadd as <- <-. cbn. rewrite lookup_insert_is_Some, <- IH.
    split; [intros [<-|[_ ?]]; [by rewrite Hs|done]|].
    intros ?. destruct (decide (k = ty)); [by left|by right].
  - unfold remove_update_handler in Hrm.
    destruct (updates_handlers self !! update_type h) as [s|] eqn:Hs; [|done].
    destruct (set_remove s h); [|done]. injection Hrm as <-. cbn.
    rewrite lookup_insert_is_Some, <- IH.
    split; [intros [<-|[_ ?]]; [by rewrite Hs|done]|].
    intros ?. destruct (decide (update_type h = ty)); [by left|by right].
  - apply add_middleware_returned in Hadd as (_ & _ & _ & ->). done.
  - apply start_prepares in Hst as (_ & _ & _ & ->). done.
  - injection Hst as <-. done.
Qed.

Lemma handlers_for_lookup (self : Bot) (ty : string) :
  reachable self → ty ∈ update_types →
  updates_handlers self !! ty = Some (handlers_for self ty).
Proof.
  intros Hr Hty. apply (reachable_kinds self ty Hr) in Hty as [s Hs].
  unfold handlers_for. by rewrite Hs.
Qed.

(** On a reachable bot that is not running, registering for one of the
    thirteen kinds returns a new handler, placed after the handlers already
    registered for the kind; the other kinds, the middlewares and the flag
    are untouched. *)
Theorem add_update_handler_registers (self : Bot) (f : HandlerCallable)
    (ty : string) (flt : option AnyFilterCallable) :
  reachable self → running self = false → ty ∈ update_types →
  ∃ bot h,
    add_update_handler self f ty flt = Returned (bot, h)
    ∧ function h = f ∧ update_type h = ty ∧ filters h = flt
    ∧ (handler_oid h ∉ (handler_oid <$> all_handlers self))
    ∧ handlers_for bot ty = handlers_for self ty ++ [h]
    ∧ (∀ ty', ty' ≠ ty → handlers_for bot ty' = handlers_for self ty')
    ∧ middlewares bot = middlewares self
    ∧ running bot = false.
Proof.
  intros Hr Hrun Hty.
  pose proof (reachable_registry_wf self Hr) as Hwf.
  destruct (add_update_handler_returned self f ty flt (handlers_for self ty)
              Hrun (handlers_for_lookup self ty Hr Hty))
    as (bot & Hadd & Hrun' & Hu & Hm & _).
  eexists bot, _. split; [exact Hadd|]. cbn.
  do 3 (split; [done|]).
  assert (∀ h', h' ∈ all_handlers self → handler_oid h' ≠ allocated self) as Hfresh.
  { intros h' Hh'. destruct Hwf as [_ Hlt]. rewrite Forall_forall in Hlt.
    specialize (Hlt h' Hh'). lia. }
  split.
  { intros (h' & Heq & Hh')%list_elem_of_fmap. by apply (Hfresh h'). }
  split.
  { unfold handlers_for at 1. rewrite Hu, lookup_insert_eq. cbn.
    apply set_add_fresh. rewrite Forall_forall. intros h' Hh'. cbn.
    apply Hfresh. unfold all_handlers. apply list_elem_of_bind. eauto. }
  split; [|done].
  intros ty' Hne. unfold handlers_for. by rewrite Hu, lookup_insert_ne.
Qed.

Lemma add_update_handler_registers_witness :
  ∃ bot h,
    add_update_handler (Bot___init__ 0) (printing 1 "H") "poll" None
      = Returned (bot, h)
    ∧ function h = printing 1 "H" ∧ update_type h = "poll" ∧ filters h = None
    ∧ (handler_oid h ∉ (handler_oid <$> all_handlers (Bot___init__ 0)))
    ∧ handlers_for bot "poll" = handlers_for (Bot___init__ 0) "poll" ++ [h]
    ∧ (∀ ty', ty' ≠ "poll" →
         handlers_for bot ty' = handlers_for (Bot___init__ 0) ty')
    ∧ middlewares bot = middlewares (Bot___init__ 0)
    ∧ running bot = false.
Proof.
  apply (add_update_handler_registers (Bot___init__ 0) (printing 1 "H") "poll" None).
  - apply reachable_init.
  - reflexivity.
  - apply (bool_decide_unpack _). vm_compute. exact I.
Defined.

(** Registering for a name that is not one of the thirteen kinds raises:
    [RuntimeError] on a running bot, where the flag is tested first,
    [ValueError] otherwise. *)
Theorem add_update_handler_unknown_kind (self : Bot) (f : HandlerCallable)
    (ty : string) (flt : option AnyFilterCallable) :
  reachable self → ty ∉ update_types →
  add_update_handler self f ty flt
  = if running self
    then Raised (RuntimeError "Unable to add middleware in already running bot instance!")
    else Raised (ValueError ("Unsupported update type: " +:+ ty +:+ "!")).
Proof.
  intros Hr Hty. unfold add_update_handler. destruct (running self); [done|].
  destruct (updates_handlers self !! ty) as [s|] eqn:Hs; [|done].
  destruct Hty. apply (reachable_kinds self ty Hr). by eexists.
Qed.

Lemma add_update_handler_unknown_kind_witness :
  add_update_handler (Bot___init__ 0) (printing 1 "H") "story" None
  = Raised (ValueError "Unsupported update type: story!").
Proof.
  apply (add_update_handler_unknown_kind (Bot___init__ 0) (printing 1 "H") "story" None).
  - apply reachable_init.
  - apply (bool_decide_unpack _). vm_compute. exact I.
Defined.

(** Once started, a bot refuses handlers and middlewares with
    [RuntimeError]; after [stop] it accepts them again. *)
Theorem registration_follows_the_running_flag (self started stopped : Bot)
    (f : HandlerCallable) (ty : string) (flt : option AnyFilterCallable)
    (m : MiddlewareCallable) :
  reachable self → ty ∈ update_types →
  result (start self) = Returned started →
  result (stop started) = Returned stopped →
  (∃ msg, add_update_handler started f ty flt = Raised (RuntimeError msg))
  ∧ (∃ msg, add_middleware started m = Raised (RuntimeError msg))
  ∧ (∃ bot h, add_update_handler stopped f ty flt = Returned (bot, h))
  ∧ (∃ bot, add_middleware stopped m = Returned bot
            ∧ middlewares bot = middlewares self ++ [m]).
Proof.
  intros Hr Hty Hstart Hstop.
  assert (reachable stopped) as Hr'.
  { eapply reachable_stop; [|exact Hstop]. by eapply reachable_start. }
  injection Hstart as <-. injection Hstop as <-.
  split; [by apply add_update_handler_running|].
  split; [by apply add_middleware_running|].
  split.
  - destruct (add_update_handler_registers _ f ty flt Hr' eq_refl Hty)
      as (bot & h & Hadd & _). eauto.
  - eexists. split; reflexivity.
Qed.

Lemma registration_follows_the_running_flag_witness :
  let started := started_bot (Bot___init__ 0) in
  let stopped := set_running false started in
  (∃ msg, add_update_handler started (printing 1 "H") "message" None
          = Raised (RuntimeError msg))
  ∧ (∃ msg, add_middleware started (tracing_middleware "A")
            = Raised (RuntimeError msg))
  ∧ (∃ bot h, add_update_handler stopped (printing 1 "H") "message" None
              = Returned (bot, h))
  ∧ (∃ bot, add_middleware stopped (tracing_middleware "A") = Returned bot
            ∧ middlewares bot
              = middlewares (Bot___init__ 0) ++ [tracing_middleware "A"]).
Proof.
  intros started stopped.
  apply (registration_follows_the_running_flag (Bot___init__ 0) started stopped
           (printing 1 "H") "message" None (tracing_middleware "A")).
  - apply reachable_init.
  - apply (bool_decide_unpack _). vm_compute. exact I.
  - reflexivity.
  - reflexivity.
Defined.

(** ** Removal *)

Lemma set_contains_filter_out (s : list Handler) (h : Handler) :
  set_contains
    (List.filter
       (λ h', negb (Nat.eqb (Handler___hash__ h') (Handler___hash__ h)
                    && Handler___eq__ h' h)) s) h
  = false.
Proof.
  unfold set_contains. induction s as [|a s IH]; [done|]. cbn.
  destruct (Nat.eqb (Handler___hash__ a) (Handler___hash__ h)
            && Handler___eq__ a h) eqn:E; cbn; [done|].
  by rewrite E, IH.
Qed.

Lemma filter_out_fresh (s : list Handler) (h : Handler) :
  Forall (λ h', handler_oid h' ≠ handler_oid h) s →
  List.filter
    (λ h', negb (Nat.eqb (Handler___hash__ h') (Handler___hash__ h)
                 && Handler___eq__ h' h)) s
  = s.
Proof.
  induction 1 as [|a s Hne _ IH]; [done|]. cbn. unfold Handler___eq__ at 1.
  apply Nat.eqb_neq in Hne. rewrite Hne, andb_false_r. cbn. by rewrite IH.
Qed.

(** Registering a handler and removing it again gives back the registry as
    it was. *)
Theorem add_then_remove_restores_registry (self bot : Bot) (f : HandlerCallable)
    (ty : string) (flt : option AnyFilterCallable) (h : Handler) :
  reachable self →
  add_update_handler self f ty flt = Returned (bot, h) →
  ∃ bot', remove_update_handler bot h = Returned bot'
          ∧ updates_handlers bot' = updates_handlers self
          ∧ middlewares bot' = middlewares self
          ∧ running bot' = running self.
Proof.
  intros Hr Hadd.
  pose proof (reachable_registry_wf self Hr) as Hwf.
  unfold add_update_handler in Hadd.
  destruct (running self) eqn:Hrun; [done|].
  destruct (updates_handlers self !! ty) as [s|] eqn:Hs; [|done].
  injection Hadd as <- <-.
  assert (ty ∈ update_types) as Hty
    by (apply (reachable_kinds self ty Hr); by eexists).
  assert (Forall (λ h', handler_oid h' ≠ allocated self) s) as Hfresh.
  { rewrite Forall_forall. intros h' Hh'.
    assert (handler_oid h' < allocated self)%nat; [|lia].
    apply (registry_wf_allocated self ty); [done..|].
    unfold handlers_for. by rewrite Hs. }
  unfold remove_update_handler. cbn [update_type updates_handlers set_handlers].
  rewrite lookup_insert_eq, set_add_fresh by done.
  unfold set_remove.
  assert (set_contains
            (s ++ [{| handler_oid := allocated self; function := f;
                      update_type := ty; filters := flt |}])
            {| handler_oid := allocated self; function := f;
               update_type := ty; filters := flt |} = true) as ->.
  { unfold set_contains. rewrite existsb_app. cbn.
    unfold Handler___eq__. cbn. rewrite !Nat.eqb_refl. cbn.
    by rewrite orb_true_r. }
  eexists. split; [reflexivity|]. cbn. split; [|by rewrite Hrun].
  rewrite List.filter_app, filter_out_fresh by done. cbn.
  unfold Handler___eq__. cbn. rewrite !Nat.eqb_refl. cbn.
  rewrite app_nil_r, insert_insert_eq. by apply insert_id.
Qed.

Lemma add_then_remove_restores_registry_witness :
  ∃ bot', remove_update_handler
            (register_all (Bot___init__ 0) [(printing 1 "H", None)])
            {| handler_oid := 0; function := printing 1 "H";
               update_type := "message"; filters := None |}
          = Returned bot'
          ∧ updates_handlers bot' = updates_handlers (Bot___init__ 0)
          ∧ middlewares bot' = middlewares (Bot___init__ 0)
          ∧ running bot' = running (Bot___init__ 0).
Proof.
  apply (add_then_remove_restores_registry (Bot___init__ 0) _ (printing 1 "H")
           "message" None).
  - apply reachable_init.
  - reflexivity.
Defined.

(** A handler can be removed once: removing it a second time raises
    [ValueError]. *)
Theorem remove_update_handler_twice (self bot : Bot) (h : Handler) :
  remove_update_handler self h = Returned bot →
  remove_update_handler bot h
  = Raised (ValueError "handler is not registered as handler").
Proof.
  unfold remove_update_handler.
  destruct (updates_handlers self !! update_type h) as [s|] eqn:Hs; [|done].
  unfold set_remove. destruct (set_contains s h); [|done].
  intros [= <-]. cbn. rewrite lookup_insert_eq.
  by rewrite set_contains_filter_out.
Qed.

Lemma remove_update_handler_twice_witness :
  remove_update_handler
    (set_handlers "message" [] (register_all (Bot___init__ 0) [(printing 1 "H", None)]))
    {| handler_oid := 0; function := printing 1 "H";
       update_type := "message"; filters := None |}
  = Raised (ValueError "handler is not registered as handler").
Proof.
  apply (remove_update_handler_twice
           (register_all (Bot___init__ 0) [(printing 1 "H", None)])).
  reflexivity.
Defined.



(** ** The typed helpers and the decorators *)

(** Each typed helper registers under one of the thirteen kinds, the
    helpers cover the kinds one for one, and so on a reachable bot that is
    not running every helper returns a handler of its kind. *)
Theorem typed_helpers_register (self : Bot) (f : HandlerCallable)
    (flt : option AnyFilterCallable) :
  reachable self → running self = false →
  Forall2 (λ (method : AddHandler) ty,
             ∃ bot h, method self f flt = Returned (bot, h)
                      ∧ update_type h = ty ∧ function h = f ∧ filters h = flt
                      ∧ handlers_for bot ty = handlers_for self ty ++ [h])
          add_handler_methods update_types.
Proof.
  intros Hr Hrun.
  assert (∀ ty, ty ∈ update_types →
            ∃ bot h, add_update_handler self f ty flt = Returned (bot, h)
                     ∧ update_type h = ty ∧ function h = f ∧ filters h = flt
                     ∧ handlers_for bot ty = handlers_for self ty ++ [h]) as H.
  { intros ty Hty.
    destruct (add_update_handler_registers self f ty flt Hr Hrun Hty)
      as (bot & h & ? & ? & ? & ? & _ & ? & _). by exists bot, h. }
  unfold add_handler_methods, update_types.
  repeat (apply Forall2_cons; split;
          [apply H; apply (bool_decide_unpack _); vm_compute; exact I|]).
  apply Forall2_nil_2.
Qed.

Lemma typed_helpers_register_witness :
  Forall2 (λ (method : AddHandler) ty,
             ∃ bot h, method (Bot___init__ 0) (printing 1 "H") None
                      = Returned (bot, h)
                      ∧ update_type h = ty ∧ function h = printing 1 "H"
                      ∧ filters h = None
                      ∧ handlers_for bot ty
                        = handlers_for (Bot___init__ 0) ty ++ [h])
          add_handler_methods update_types.
Proof.
  apply (typed_helpers_register (Bot___init__ 0) (printing 1 "H") None).
  - apply reachable_init.
  - reflexivity.
Defined.

(** Each decorator returns the decorated function itself and leaves the
    bot that the helper of the same kind leaves. *)
Theorem decorators_register (self : Bot) (f : HandlerCallable)
    (flt : option AnyFilterCallable) :
  reachable self → running self = false →
  Forall2 (λ (decorator : OnUpdate) (method : AddHandler),
             ∃ bot h, method self f flt = Returned (bot, h)
                      ∧ decorator self flt f = Returned (bot, f))
          on_update_methods add_handler_methods.
Proof.
  intros Hr Hrun.
  pose proof (typed_helpers_register self f flt Hr Hrun) as H.
  unfold add_handler_methods, on_update_methods, update_types in *.
  repeat (apply Forall2_cons_1 in H as [(bot & h & Hm & _) H];
          apply Forall2_cons; split;
          [exists bot, h; split; [exact Hm|];
           cbv beta delta
             [on_message on_edited_message on_channel_post
              on_edited_channel_post on_inline_query on_chosen_inline_result
              on_callback_query on_shipping_query on_pre_checkout_query
              on_poll on_poll_answer on_my_chat_member on_chat_member
              on_update];
           cbv beta delta
             [add_message_handler add_edited_message_handler
              add_channel_post_handler add_edited_channel_post_handler
              add_inline_query_handler add_chosen_inline_result_handler
              add_callback_query_handler add_shipping_query_handler
              add_pre_checkout_query_handler add_poll_handler
              add_poll_answer_handler add_my_chat_member_handler
              add_chat_member_handler] in Hm;
           by rewrite Hm|clear bot h Hm]).
  apply Forall2_nil_2.
Qed.

Lemma decorators_register_witness :
  Forall2 (λ (decorator : OnUpdate) (method : AddHandler),
             ∃ bot h, method (Bot___init__ 0) (printing 1 "H") None
                      = Returned (bot, h)
                      ∧ decorator (Bot___init__ 0) None (printing 1 "H")
                        = Returned (bot, printing 1 "H"))
          on_update_methods add_handler_methods.
Proof.
  apply (decorators_register (Bot___init__ 0) (printing 1 "H") None).
  - apply reachable_init.
  - reflexivity.
Defined.

(** ** The fan-out on any update *)

Lemma getattr_set_field_ne ty ty' su (update : Update) :
  ty ≠ ty' → getattr (set_field ty su update) ty' = getattr update ty'.
Proof. intros Hne. unfold getattr, set_field. cbn. by apply lookup_insert_ne. Qed.

Lemma collect_step_fields (self : Bot) (update : Update) tasks k ty :
  getattr (collect_step self (update, tasks) k).1 ty
  = (if decide (ty = k) then with_bot else id) <$> getattr update ty.
Proof.
  unfold collect_step.
  destruct (getattr update k) as [su|] eqn:Hk; cbn.
  - case_decide as Hty.
    + subst ty. by rewrite getattr_set_field, Hk.
    + rewrite getattr_set_field_ne by done. by destruct (getattr update ty).
  - case_decide as Hty; [subst ty; by rewrite Hk|by destruct (getattr update ty)].
Qed.

Lemma collect_step_tasks (self : Bot) (update : Update) tasks k :
  (collect_step self (update, tasks) k).2
  = tasks ++ match getattr update k with
             | Some _ => tasks_for k (handlers_for self k)
             | None => []
             end.
Proof.
  unfold collect_step. destruct (getattr update k); cbn; [done|].
  by rewrite app_nil_r.
Qed.

(** The loop over the kinds: every populated kind among [keys] gets the
    bot in its [EXTRA] and contributes the tasks of its handlers, in the
    order of [keys]. *)
Lemma collect_loop_any (self : Bot) (keys : list string) (update : Update) tasks :
  NoDup keys →
  let r := foldl (collect_step self) (update, tasks) keys in
  (∀ ty, getattr r.1 ty
         = (if decide (ty ∈ keys) then with_bot else id) <$> getattr update ty)
  ∧ r.2 = tasks ++ (keys ≫= λ ty, match getattr update ty with
                                  | Some _ => tasks_for ty (handlers_for self ty)
                                  | None => []
                                  end).
Proof.
  revert update tasks. induction keys as [|k keys IH]; intros update tasks Hnd.
  - cbn. split; [|by rewrite app_nil_r]. intros ty. by destruct (getattr update ty).
  - apply NoDup_cons in Hnd as [Hk Hnd]. cbn [foldl].
    destruct (collect_step self (update, tasks) k) as [update1 tasks1] eqn:E.
    pose proof (collect_step_fields self update tasks k) as Hf.
    pose proof (collect_step_tasks self update tasks k) as Ht.
    rewrite E in Hf, Ht. cbn in Hf, Ht.
    destruct (IH update1 tasks1 Hnd) as [IH1 IH2]. split.
    + intros ty. rewrite IH1, Hf.
      destruct (getattr update ty) as [su|]; [|by repeat case_decide].
      cbn. destruct (decide (ty = k)) as [->|Hne].
      * rewrite decide_False by done. by rewrite decide_True by left.
      * destruct (decide (ty ∈ keys)).
        -- by rewrite decide_True by (by right).
        -- rewrite decide_False; [done|]. by intros [?|?]%elem_of_cons.
    + rewrite IH2, Ht, bind_cons, <- app_assoc. do 2 f_equal.
      apply Forall_bind_ext, Forall_forall. intros ty Hty. rewrite Hf.
      by destruct (getattr update ty).
Qed.

(** The guarded call of every task is entered, whatever the tasks before it
    did. *)
Lemma awaited_gather_any (tasks : list Task) (update : Update) :
  Forall (λ task, is_Some (getattr update task.2)) tasks →
  awaited (gather tasks update).2.1 = (λ task, handler_oid task.1) <$> tasks.
Proof.
  revert update. induction tasks as [|[h ty] tasks IH]; intros update Hpop; [done|].
  apply Forall_cons in Hpop as [[su Hsu] Hpop].
  change (getattr update ty = Some su) in Hsu.
  cbn [gather run_task]. rewrite Hsu.
  destruct (call_handler h su) as [su' m] eqn:E.
  specialize (IH (set_field ty su' update)).
  destruct (gather tasks (set_field ty su' update)) as [u2 [t' rs]].
  destruct m as [t r]. cbn -[awaited] in *.
  rewrite awaited_app, IH.
  - pose proof (awaited_call_handler h su) as Ha. rewrite E in Ha. cbn -[awaited] in Ha.
    by rewrite Ha.
  - eapply Forall_impl; [exact Hpop|]. intros [h' ty'] Hs.
    change (is_Some (getattr update ty')) in Hs.
    change (is_Some (getattr (set_field ty su' update) ty')).
    destruct (decide (ty = ty')) as [->|Hne].
    + by rewrite getattr_set_field.
    + by rewrite getattr_set_field_ne.
Qed.

Lemma tasks_handlers (self : Bot) (update : Update) (keys : list string) :
  (λ task : Task, handler_oid task.1)
    <$> (keys ≫= λ ty, match getattr update ty with
                       | Some _ => tasks_for ty (handlers_for self ty)
                       | None => []
                       end)
  = handler_oid
    <$> (keys ≫= λ ty, match getattr update ty with
                       | Some _ => handlers_for self ty
                       | None => []
                       end).
Proof.
  induction keys as [|k keys IH]; [done|].
  rewrite !bind_cons, !fmap_app, IH. f_equal.
  destruct (getattr update k); [|done].
  unfold tasks_for. by rewrite <- list_fmap_compose.
Qed.

Lemma tasks_none (self : Bot) (update : Update) (keys : list string) :
  (∀ ty, ty ∈ keys → getattr update ty = None) →
  (keys ≫= λ ty, match getattr update ty with
                 | Some _ => tasks_for ty (handlers_for self ty)
                 | None => []
                 end) = [].
Proof.
  induction keys as [|k keys IH]; intros Hk; [done|].
  rewrite bind_cons, (Hk k) by left. cbn. apply IH. intros ty Hty.
  apply Hk. by right.
Qed.

(** For any update, with no, one or several populated fields, the fan-out
    enters the guarded call of the handlers of every populated kind, kind
    by kind in the order of the registry; with no populated field it does
    nothing. *)
Theorem call_handlers_any_update (self : Bot) (update : Update) :
  awaited (trace (call_handlers self update))
  = (handler_oid <$> populated_handlers self update)
  ∧ ((∀ ty, ty ∈ update_types → getattr update ty = None) →
     call_handlers self update = ([], Returned tt)).
Proof.
  unfold call_handlers, collect_tasks.
  destruct (collect_loop_any self update_types update [] NoDup_update_types)
    as [Hf Ht].
  destruct (foldl (collect_step self) (update, []) update_types)
    as [update' tasks]. cbn [fst snd app] in Hf, Ht. subst tasks. split.
  - pose proof (awaited_gather_any
      (update_types ≫= λ ty, match getattr update ty with
                             | Some _ => tasks_for ty (handlers_for self ty)
                             | None => []
                             end) update') as Ha.
    destruct (gather _ update') as [u2 [t rs]]. unfold trace. cbn [fst snd] in *.
    rewrite Ha; [apply tasks_handlers|].
    apply Forall_bind, Forall_forall. intros ty Hty. unfold compose.
    destruct (getattr update ty) as [su|] eqn:Hsu; [|by apply Forall_nil].
    unfold tasks_for. apply Forall_fmap, Forall_forall. intros h _.
    change (is_Some (getattr update' ty)).
    rewrite Hf, Hsu. by rewrite decide_True.
  - intros Hnone. by rewrite tasks_none.
Qed.

(** A property of the [EXTRA] of the populated fields that every guarded
    call keeps holds of every context that a function is called with. *)
Lemma called_gather_invariant (P : dict → Prop) (tasks : list Task) (update : Update) :
  (∀ h ty su, (h, ty) ∈ tasks → P (EXTRA su) → P (EXTRA (call_handler h su).1)) →
  Forall (λ task, ∃ su, getattr update task.2 = Some su ∧ P (EXTRA su)) tasks →
  Forall (λ pe, P pe.2) (called (gather tasks update).2.1).
Proof.
  revert update. induction tasks as [|[h ty] tasks IH]; intros update Hkeep Hpop;
    [by apply Forall_nil|].
  apply Forall_cons in Hpop as [(su & Hsu & HP) Hpop].
  change (getattr update ty = Some su) in Hsu.
  cbn [gather run_task]. rewrite Hsu.
  pose proof (called_call_handler h su) as [passed Hc].
  pose proof (Hkeep h ty su (list_elem_of_here _ _) HP) as HP'.
  destruct (call_handler h su) as [su' m] eqn:E.
  specialize (IH (set_field ty su' update)).
  destruct (gather tasks (set_field ty su' update)) as [u2 [t' rs]].
  destruct m as [t r]. unfold trace in *. cbn [fst snd] in *.
  rewrite called_app. apply Forall_app. split.
  - rewrite Hc. destruct passed; [|by apply Forall_nil].
    by apply Forall_singleton.
  - apply IH.
    + intros h' ty' su0 Hin. apply (Hkeep h' ty' su0).
      by apply list_elem_of_further.
    + eapply Forall_impl; [exact Hpop|]. intros [h' ty'] (su0 & Hs0 & HP0).
      change (getattr update ty' = Some su0) in Hs0.
      change (∃ su1, getattr (set_field ty su' update) ty' = Some su1 ∧ P (EXTRA su1)).
      destruct (decide (ty = ty')) as [->|Hne].
      * exists su'. by rewrite getattr_set_field.
      * exists su0. by rewrite getattr_set_field_ne.
Qed.

Lemma task_of_populated_handler (self : Bot) (update : Update) (keys : list string) h ty :
  (h, ty) ∈ (keys ≫= λ ty, match getattr update ty with
                           | Some _ => tasks_for ty (handlers_for self ty)
                           | None => []
                           end) →
  ty ∈ keys ∧ is_Some (getattr update ty) ∧ h ∈ handlers_for self ty.
Proof.
  intros (k & Hin & Hk)%list_elem_of_bind.
  destruct (getattr update k) as [su|] eqn:Hsu; [|by apply elem_of_nil in Hin].
  unfold tasks_for in Hin. apply list_elem_of_fmap in Hin as (h' & [= -> ->] & Hh').
  rewrite Hsu. eauto.
Qed.

(** Every function is called with the key ["bot"] in [EXTRA]; it holds the
    bot unless the filter of some handler of a populated kind returns a
    mapping with that key. *)
Theorem bot_in_every_context (self : Bot) (update : Update) :
  Forall (λ pe, is_Some (pe.2 !! "bot"))
         (called (trace (call_handlers self update)))
  ∧ ((∀ h su, h ∈ populated_handlers self update →
              own_context h su !! "bot" = None) →
     Forall (λ pe, pe.2 !! "bot" = Some VBot)
            (called (trace (call_handlers self update)))).
Proof.
  unfold call_handlers, collect_tasks.
  destruct (collect_loop_any self update_types update [] NoDup_update_types)
    as [Hf Ht].
  destruct (foldl (collect_step self) (update, []) update_types)
    as [update' tasks]. cbn [fst snd app] in Hf, Ht. subst tasks.
  assert (∀ P : dict → Prop,
            (∀ d, P (<["bot" := VBot]> d)) →
            (∀ h su, h ∈ populated_handlers self update →
                     P (EXTRA su) → P (EXTRA (call_handler h su).1)) →
            Forall (λ pe, P pe.2)
              (called (gather
                 (update_types ≫= λ ty, match getattr update ty with
                                        | Some _ => tasks_for ty (handlers_for self ty)
                                        | None => []
                                        end) update').2.1)) as Hinv.
  { intros P Hbot Hkeep. apply called_gather_invariant.
    - intros h ty su Hin. apply Hkeep.
      apply task_of_populated_handler in Hin as (Hty & [su0 Hsu0] & Hh).
      unfold populated_handlers. apply list_elem_of_bind. exists ty.
      by rewrite Hsu0.
    - apply Forall_forall. intros [h ty] Hin.
      apply task_of_populated_handler in Hin as (Hty & [su0 Hsu0] & Hh).
      exists (with_bot su0). split; [|apply Hbot].
      change (getattr update' ty = Some (with_bot su0)).
      rewrite Hf, Hsu0. by rewrite decide_True. }
  split.
  - specialize (Hinv (λ d, is_Some (d !! "bot"))).
    destruct (gather _ update') as [u2 [t rs]]. unfold trace. cbn [fst snd] in *.
    apply Hinv.
    + intros d. rewrite lookup_insert_eq. by eexists.
    + intros h su _. apply call_handler_keeps_keys.
  - intros Hfilters. specialize (Hinv (λ d, d !! "bot" = Some VBot)).
    destruct (gather _ update') as [u2 [t rs]]. unfold trace. cbn [fst snd] in *.
    apply Hinv.
    + intros d. apply lookup_insert_eq.
    + intros h su Hh Hsu. rewrite call_handler_EXTRA.
      rewrite lookup_union_r; [done|]. by apply Hfilters.
Qed.

(** ** Middlewares, any number of them *)

Lemma outs_app (t1 t2 : list Event) : outs (t1 ++ t2) = outs t1 ++ outs t2.
Proof. apply omap_app. Qed.

Lemma outs_Out (labels : list string) : outs (Out <$> labels) = labels.
Proof.
  induction labels as [|l labels IH]; [done|].
  change (l :: outs (Out <$> labels) = l :: labels). by rewrite IH.
Qed.

(** Tracing middlewares around a continuation that returns. *)
Lemma tracing_chain_trace (names : list string) (k : Update → M unit)
    (update : Update) :
  (∀ u, result (k u) = Returned tt) →
  foldr (λ (m : MiddlewareCallable) (call_next : Update → M unit),
           (λ update, m update call_next))
        k (tracing_middleware <$> names) update
  = ((Out <$> ((λ n, n +:+ "-enter") <$> names))
     ++ trace (k update)
     ++ (Out <$> ((λ n, n +:+ "-exit") <$> rev names)),
     Returned tt).
Proof.
  intros Hk. revert update. induction names as [|n names IH]; intros update.
  - cbn. specialize (Hk update). destruct (k update) as [t r]. cbn in *.
    by rewrite app_nil_r, Hk.
  - cbn [fmap list_fmap foldr]. unfold tracing_middleware at 1.
    rewrite (IH update). cbn.
    by rewrite !fmap_app, <- !app_assoc.
Qed.

(** After [start] a dispatch nests the middlewares, however many, in
    registration order around the fan-out; with tracing middlewares it
    prints the enters in registration order, then what the handlers print,
    then the exits in reverse order. *)
Theorem middleware_chain_any_length (self started : Bot) (update : Update) :
  result (start self) = Returned started →
  handle_update started update
  = foldr (λ (m : MiddlewareCallable) (call_next : Update → M unit),
             (λ update, m update call_next))
          (λ _, call_handlers started update) (middlewares self) update
  ∧ (∀ names, middlewares self = tracing_middleware <$> names →
       outs (trace (handle_update started update))
       = ((λ n, n +:+ "-enter") <$> names)
         ++ outs (trace (call_handlers started update))
         ++ ((λ n, n +:+ "-exit") <$> rev names)).
Proof.
  intros Hstart. apply start_prepares in Hstart as (_ & Hm & Hprep & _).
  assert (handle_update started update
          = foldr (λ (m : MiddlewareCallable) (call_next : Update → M unit),
                     (λ update, m update call_next))
                  (λ _, call_handlers started update) (middlewares self) update)
    as E.
  { rewrite handle_update_chain by (by rewrite Hm, Hprep). by rewrite Hm. }
  split; [exact E|]. intros names Hnames. rewrite E, Hnames.
  rewrite (tracing_chain_trace names (λ _, call_handlers started update) update
             (λ _, call_handlers_returns started update)).
  unfold trace at 1. cbn [fst]. by rewrite !outs_app, !outs_Out.
Qed.

Lemma middleware_chain_any_length_witness :
  let self := with_middlewares
                (register_all (Bot___init__ 0) [(printing 1 "H", None)])
                [tracing_middleware "A"; tracing_middleware "B"; tracing_middleware "C"] in
  outs (trace (handle_update (started_bot self) (message_update 5)))
  = [ "A-enter"; "B-enter"; "C-enter"; "H"; "C-exit"; "B-exit"; "A-exit" ].
Proof.
  intros self.
  apply (proj2 (middleware_chain_any_length self (started_bot self)
                  (message_update 5) eq_refl) ["A"; "B"; "C"]).
  reflexivity.
Defined.

Lemma started_chain (self started : Bot) (update : Update) :
  result (start self) = Returned started →
  handle_update started update
  = foldr (λ (m : MiddlewareCallable) (call_next : Update → M unit),
             (λ update, m update call_next))
          (λ _, call_handlers started update) (middlewares self) update.
Proof.
  intros Hstart. apply start_prepares in Hstart as (_ & Hm & Hprep & _).
  rewrite handle_update_chain by (by rewrite Hm, Hprep). by rewrite Hm.
Qed.

(** If the first registered middleware does not use its continuation, a
    dispatch is what that middleware does alone: no other middleware and no
    handler runs. *)
Theorem first_middleware_short_circuits (self started : Bot)
    (m : MiddlewareCallable) (ms : list MiddlewareCallable) (update : Update) :
  middlewares self = m :: ms →
  (∀ u call_next call_next', m u call_next = m u call_next') →
  result (start self) = Returned started →
  handle_update started update = m update (λ _, mret tt).
Proof.
  intros Hms Hm Hstart. rewrite (started_chain self started update Hstart), Hms.
  cbn. apply Hm.
Qed.

Lemma first_middleware_short_circuits_witness :
  let self := with_middlewares
                (register_all (Bot___init__ 0) [(printing 1 "H", None)])
                [blocking; tracing_middleware "B"] in
  handle_update (started_bot self) (message_update 5) = ([], Returned tt).
Proof.
  intros self.
  apply (first_middleware_short_circuits self (started_bot self) blocking
           [tracing_middleware "B"] (message_update 5));
    reflexivity.
Defined.

Lemma tracing_chain_raised (names : list string) (k : Update → M unit)
    (e : exc) (update : Update) :
  (∀ u, k u = raise e) →
  foldr (λ (m : MiddlewareCallable) (call_next : Update → M unit),
           (λ update, m update call_next))
        k (tracing_middleware <$> names) update
  = (Out <$> ((λ n, n +:+ "-enter") <$> names), Raised e).
Proof.
  intros Hk. revert update. induction names as [|n names IH]; intros update.
  - cbn. apply Hk.
  - cbn [fmap list_fmap foldr]. unfold tracing_middleware at 1.
    by rewrite (IH update).
Qed.

(** What a middleware raises before awaiting its continuation leaves the
    dispatch through the middlewares registered before it: their exits do
    not run, no handler runs, nothing is logged; the batch entry point
    still returns. *)
Theorem middleware_exception_propagates (self started : Bot) (names : list string)
    (e : exc) (ms : list MiddlewareCallable) (update : Update) :
  middlewares self = (tracing_middleware <$> names) ++ failing e :: ms →
  result (start self) = Returned started →
  handle_update started update
  = (Out <$> ((λ n, n +:+ "-enter") <$> names), Raised e)
  ∧ on_webhook_received started [update]
    = (task_created (update_id update)
         :: (Out <$> ((λ n, n +:+ "-enter") <$> names)), Returned tt).
Proof.
  intros Hms Hstart.
  assert (handle_update started update
          = (Out <$> ((λ n, n +:+ "-enter") <$> names), Raised e)) as E.
  { rewrite (started_chain self started update Hstart), Hms.
    rewrite foldr_app. cbn [foldr]. by apply tracing_chain_raised. }
  split; [exact E|].
  unfold on_webhook_received, handle_updates. cbn. rewrite E. cbn.
  by rewrite app_nil_r.
Qed.

Lemma middleware_exception_propagates_witness :
  let self := with_middlewares
                (register_all (Bot___init__ 0) [(printing 1 "H", None)])
                [tracing_middleware "A"; failing (Exception_ "boom")] in
  handle_update (started_bot self) (message_update 5)
  = ([Out "A-enter"], Raised (Exception_ "boom"))
  ∧ on_webhook_received (started_bot self) [message_update 5]
    = ([task_created 5; Out "A-enter"], Returned tt).
Proof.
  intros self.
  apply (middleware_exception_propagates self (started_bot self) ["A"]
           (Exception_ "boom") [] (message_update 5));
    reflexivity.
Defined.

(** The fan-out runs on the update that was dispatched, whatever update the
    last registered middleware hands to its continuation. *)
Theorem fan_out_ignores_substituted_update (self started : Bot)
    (ms : list MiddlewareCallable) (update other : Update) :
  middlewares self = ms ++ [substituting other] →
  result (start self) = Returned started →
  handle_update started update
  = foldr (λ (m : MiddlewareCallable) (call_next : Update → M unit),
             (λ update, m update call_next))
          (λ _, call_handlers started update) ms update.
Proof.
  intros Hms Hstart. rewrite (started_chain self started update Hstart), Hms.
  by rewrite foldr_app.
Qed.

Lemma fan_out_ignores_substituted_update_witness :
  let self := with_middlewares
                (register_all (Bot___init__ 0) [(printing 1 "H", None)])
                [substituting {| update_id := 9; fields := ∅ |}] in
  handle_update (started_bot self) (message_update 5)
  = call_handlers (started_bot self) (message_update 5).
Proof.
  intros self.
  apply (fan_out_ignores_substituted_update self (started_bot self) []
           (message_update 5) {| update_id := 9; fields := ∅ |});
    reflexivity.
Defined.

(** ** Polling, any sequence of answers *)

Lemma offsets_sent_app (t1 t2 : list Event) :
  offsets_sent (t1 ++ t2) = offsets_sent t1 ++ offsets_sent t2.
Proof. apply omap_app. Qed.

Lemma polling_loop_step (self : Bot) (updates : list Update) responses last :
  polling_loop self (Returned updates :: responses) last
  = let '(t, r) := polling_loop self responses (last_update_id updates last) in
    (get_updates_called (last + 1) 100 (polling_timeout self) :: sleep_called :: t, r).
Proof.
  assert ((if bool_decide (0 < length updates)%nat
           then last_update_id updates last else last)
          = last_update_id updates last) as E.
  { case_bool_decide as Hlen; [done|]. destruct updates; [done|]. cbn in Hlen. lia. }
  cbn. rewrite E. by destruct (polling_loop self responses _) as [t r].
Qed.

(** The loop on answers that all return: one request per answer, each for
    the identifier after the last one received so far. *)
Lemma polling_loop_returned (self : Bot) (batches : list (list Update)) last :
  result (polling_loop self (Returned <$> batches) last)
  = Returned (last_after batches last)
  ∧ offsets_sent (trace (polling_loop self (Returned <$> batches) last))
    = (λ i, last_after (take i batches) last + 1) <$> seq 0 (length batches).
Proof.
  revert last. induction batches as [|b batches IH]; intros last; [done|].
  rewrite fmap_cons, polling_loop_step.
  destruct (IH (last_update_id b last)) as [IHr IHo].
  destruct (polling_loop self (Returned <$> batches) _) as [t r].
  unfold trace, result in *. cbn [fst snd] in *. split; [done|].
  cbn [length seq fmap list_fmap take]. rewrite <- fmap_S_seq, <- list_fmap_compose.
  change (offsets_sent (get_updates_called (last + 1) 100 (polling_timeout self)
                          :: sleep_called :: t))
    with ((last + 1) :: offsets_sent t).
  by rewrite IHo.
Qed.

(** The loop up to an answer that raises: the requests before it, the
    failed one, and no other. *)
Lemma polling_loop_raised (self : Bot) (batches : list (list Update)) e rest last :
  result (polling_loop self ((Returned <$> batches) ++ Raised e :: rest) last)
  = Raised e
  ∧ offsets_sent
      (trace (polling_loop self ((Returned <$> batches) ++ Raised e :: rest) last))
    = ((λ i, last_after (take i batches) last + 1) <$> seq 0 (length batches))
      ++ [last_after batches last + 1].
Proof.
  revert last. induction batches as [|b batches IH]; intros last; [done|].
  rewrite fmap_cons. cbn [app]. rewrite polling_loop_step.
  destruct (IH (last_update_id b last)) as [IHr IHo].
  destruct (polling_loop self _ _) as [t r].
  unfold trace, result in *. cbn [fst snd] in *. split; [done|].
  cbn [length seq fmap list_fmap take]. rewrite <- fmap_S_seq, <- list_fmap_compose.
  change (offsets_sent (get_updates_called (last + 1) 100 (polling_timeout self)
                          :: sleep_called :: t))
    with ((last + 1) :: offsets_sent t).
  by rewrite IHo.
Qed.

(** [run_long_polling] on answers that all return sends one request per
    answer, each with the offset after the last identifier received so far
    (0 before any), and returns the last identifier received; a bot that is
    not running sends no request. *)
Theorem polling_requests (self : Bot) (batches : list (list Update)) :
  let m := run_long_polling self (Returned <$> batches) in
  result m = Returned (if running self then last_after batches (-1) else -1)
  ∧ offsets_sent (trace m)
    = if running self
      then (λ i, last_after (take i batches) (-1) + 1) <$> seq 0 (length batches)
      else [].
Proof.
  unfold run_long_polling. destruct (running self); [|done].
  destruct (polling_loop_returned self batches (-1)) as [Hr Ho].
  destruct (polling_loop self (Returned <$> batches) (-1)) as [t r].
  unfold trace, result in *. cbn [fst snd] in *. subst r. cbn. split; [done|].
  change (offsets_sent (logger_info "Start polling updates"
                          :: t ++ [logger_info "Stop polling";
                                   logger_info "Stopping Bot..."]))
    with (offsets_sent (t ++ [logger_info "Stop polling";
                              logger_info "Stopping Bot..."])).
  by rewrite offsets_sent_app, Ho, app_nil_r.
Qed.

(** A request that raises ends the polling: the exception leaves
    [run_long_polling], the answers after it are never asked for, and the
    [finally] block still logs and stops the bot. *)
Theorem polling_stops_at_failed_request (self : Bot) (batches : list (list Update))
    (e : exc) (rest : list (outcome (list Update))) :
  running self = true →
  let m := run_long_polling self ((Returned <$> batches) ++ Raised e :: rest) in
  result m = Raised e
  ∧ offsets_sent (trace m)
    = ((λ i, last_after (take i batches) (-1) + 1) <$> seq 0 (length batches))
      ++ [last_after batches (-1) + 1]
  ∧ (∃ t, trace m = t ++ [logger_info "Stop polling"; logger_info "Stopping Bot..."]).
Proof.
  intros Hrun. unfold run_long_polling. rewrite Hrun.
  destruct (polling_loop_raised self batches e rest (-1)) as [Hr Ho].
  destruct (polling_loop self _ (-1)) as [t r].
  unfold trace, result in *. cbn [fst snd] in *. subst r. cbn.
  split; [done|]. split.
  - change (offsets_sent (logger_info "Start polling updates"
                            :: t ++ [logger_info "Stop polling";
                                     logger_info "Stopping Bot..."]))
      with (offsets_sent (t ++ [logger_info "Stop polling";
                                logger_info "Stopping Bot..."])).
    by rewrite offsets_sent_app, Ho, app_nil_r.
  - by exists (logger_info "Start polling updates" :: t).
Qed.

Lemma polling_stops_at_failed_request_witness :
  let m := run_long_polling (set_running true (Bot___init__ 0))
             [ Returned [message_update 5]; Raised (TelegramException 502 "Bad Gateway");
               Returned [message_update 6] ] in
  result m = Raised (TelegramException 502 "Bad Gateway")
  ∧ offsets_sent (trace m) = [0; 6]
  ∧ (∃ t, trace m = t ++ [logger_info "Stop polling"; logger_info "Stopping Bot..."]).
Proof.
  apply (polling_stops_at_failed_request (set_running true (Bot___init__ 0))
           [[message_update 5]] (TelegramException 502 "Bad Gateway")
           [Returned [message_update 6]]).
  reflexivity.
Defined.


(** ** [Error.text] and the exception of an API error *)

Lemma append_nil_r (s : string) : s +:+ "" = s.
Proof.
  induction s as [|a s IH]; [done|].
  change (String a (s +:+ "") = String a s). by rewrite IH.
Qed.

Lemma append_assoc (s1 s2 s3 : string) : (s1 +:+ s2) +:+ s3 = s1 +:+ s2 +:+ s3.
Proof.
  induction s1 as [|a s1 IH]; [done|].
  change (String a ((s1 +:+ s2) +:+ s3) = String a (s1 +:+ s2 +:+ s3)).
  by rewrite IH.
Qed.

Lemma append_eq_self (s1 s2 : string) : s1 +:+ s2 = s1 → s2 = "".
Proof.
  intros H. apply (String.app_inj s1). by rewrite append_nil_r.
Qed.

(** The text of an error starts with its description, and is the
    description alone exactly when there are no parameters or both
    [retry_after] and [migrate_to_chat_id] are missing or 0. *)
Theorem Error_text_description (self : Error) :
  (∃ suffix, Error_text self = description self +:+ suffix)
  ∧ (Error_text self = description self
     ↔ ∀ p, parameters self = Some p →
            bool_optional_int (retry_after p) = false
            ∧ bool_optional_int (migrate_to_chat_id p) = false).
Proof.
  unfold Error_text. destruct (parameters self) as [p|].
  2:{ split; [exists ""; by rewrite append_nil_r|]. split; [by intros _ p [=]|done]. }
  destruct (bool_optional_int (retry_after p)) eqn:Hr;
    destruct (bool_optional_int (migrate_to_chat_id p)) eqn:Hm.
  - split.
    + eexists. rewrite ?append_assoc. reflexivity.
    + split; [|intros H; destruct (H p eq_refl); congruence].
      rewrite ?append_assoc. intros H%append_eq_self. discriminate H.
  - split.
    + eexists. rewrite ?append_assoc. reflexivity.
    + split; [|intros H; destruct (H p eq_refl); congruence].
      rewrite ?append_assoc. intros H%append_eq_self. discriminate H.
  - split.
    + eexists. rewrite ?append_assoc. reflexivity.
    + split; [|intros H; destruct (H p eq_refl); congruence].
      rewrite ?append_assoc. intros H%append_eq_self. discriminate H.
  - split; [exists ""; by rewrite append_nil_r|].
    split; [|done]. by intros _ p' [= <-].
Qed.

(** ** [__make_request]: what becomes of a response *)


(** Whenever the body parses as an [Error] and the status is an error or
    [ok] is falsy, the exception raised is the [TelegramException] with the
    code and text of the body: not an [Exception], and printed as the code
    in brackets followed by a text that starts with the description. *)
Theorem make_request_TelegramException {json R} (lib : Parsers json R)
    (response_model : bool) (response : HTTPResponse json) (response_json : json)
    (error : Error) :
  loads response = Some response_json →
  Error_parse_obj lib response_json = Some error →
  is_error response = true ∨ get_ok lib response_json = false →
  make_request lib response_model response
  = Raised (TelegramException (error_code error) (Error_text error))
  ∧ isinstance_Exception (TelegramException (error_code error) (Error_text error))
    = false
  ∧ ∃ suffix,
      TelegramException___str__ (error_code error) (Error_text error)
      = "[Error " +:+ pretty (error_code error) +:+ "] "
        +:+ description error +:+ suffix.
Proof.
  intros Hl Hp Hcase. split; [|split; [done|]].
  - unfold make_request, raise_parsed_error. rewrite Hl, Hp.
    destruct (is_error response); [done|].
    destruct Hcase as [?| ->]; done.
  - destruct (Error_text_description error) as [[suffix ->] _].
    exists suffix. unfold TelegramException___str__. done.
Qed.



Lemma make_request_TelegramException_witness :
  make_request sample_lib true
    {| loads := Some "flood"; is_error := false; status_raises := false |}
  = Raised (TelegramException 429 "Too Many Requests Retry after: 3.")
  ∧ isinstance_Exception (TelegramException 429 "Too Many Requests Retry after: 3.")
    = false
  ∧ ∃ suffix,
      TelegramException___str__ 429 "Too Many Requests Retry after: 3."
      = "[Error " +:+ pretty 429 +:+ "] " +:+ "Too Many Requests" +:+ suffix.
Proof.
  apply (make_request_TelegramException sample_lib true
           {| loads := Some "flood"; is_error := false; status_raises := false |}
           "flood"
           {| ok := false; error_code := 429; description := "Too Many Requests";
              parameters := Some {| migrate_to_chat_id := None;
                                    retry_after := Some 3 |} |}).
  - reflexivity.
  - reflexivity.
  - right. reflexivity.
Defined.

(** ** The multipart form of [__make_request] *)

(** In the form branch every [InputFile] of [data], and nothing else, is
    opened under its key and replaced in [data] by the reference
    [attach://key]; no key is added or dropped and no [InputFile] is
    left. *)
Theorem form_files_and_data (data : gmap string FormValue) (k : string) :
  form_files data !! k
  = match data !! k with
    | Some (InputFile_ path) => Some path
    | _ => None
    end
  ∧ form_data data !! k
    = match data !! k with
      | Some (InputFile_ _) => Some (Plain ("attach://" +:+ k))
      | other => other
      end
  ∧ (is_Some (form_files data !! k)
     ↔ form_data data !! k = Some (Plain ("attach://" +:+ k))
       ∧ data !! k ≠ Some (Plain ("attach://" +:+ k)))
  ∧ (∀ v, form_data data !! k = Some v → isinstance_InputFile v = false).
Proof.
  unfold form_files, form_data. rewrite lookup_omap, map_lookup_imap.
  destruct (data !! k) as [[path|v]|] eqn:Hk; cbn.
  - split; [done|]. split; [done|]. split.
    + split; [done|]. intros _. by eexists.
    + by intros v [= <-].
  - split; [done|]. split; [done|]. split.
    + split; [by intros [? [=]]|]. by intros [[= ->] ?].
    + by intros v' [= <-].
  - split; [done|]. split; [done|]. split.
    + split; [by intros [? [=]]|]. by intros [[=] _].
    + done.
Qed.

(** ** Removal of a registered handler *)

Lemma set_add_subseteq (s : list Handler) (h h' : Handler) :
  h' ∈ set_add s h → h' ∈ s ∨ h' = h.
Proof.
  unfold set_add. destruct (set_contains s h); [by left|].
  intros [?|?%list_elem_of_singleton]%elem_of_app; auto.
Qed.

(** In a reachable bot every handler sits in the set of its own kind. *)
Lemma reachable_update_type (self : Bot) (ty : string) (h : Handler) :
  reachable self → h ∈ handlers_for self ty → update_type h = ty.
Proof.
  intros Hr. revert ty h.
  induction Hr as [t | self f k flt bot h0 _ IH Hadd | self h0 bot _ IH Hrm
                  | self m bot _ IH Hadd | self bot _ IH Hst | self bot _ IH Hst];
    intros ty h.
  - unfold handlers_for. destruct (decide (ty ∈ update_types)) as [Hty|Hty].
    + rewrite Bot___init___handlers by done. by intros ?%elem_of_nil.
    + destruct (updates_handlers (Bot___init__ t) !! ty) as [s|] eqn:Hs;
        [|by intros ?%elem_of_nil].
      destruct Hty. apply (reachable_kinds (Bot___init__ t) ty (reachable_init t)).
      by eexists.
  - unfold add_update_handler in Hadd. destruct (running self); [done|].
    destruct (updates_handlers self !! k) as [s|] eqn:Hs; [|done].
    injection Hadd as <- <-.
    unfold handlers_for at 1. cbn. rewrite lookup_insert.
    case_decide as Hk.
    + subst ty. cbn. intros [Hin| ->]%set_add_subseteq; [|done].
      apply IH. unfold handlers_for. by rewrite Hs.
    + apply IH.
  - unfold remove_update_handler in Hrm.
    destruct (updates_handlers self !! update_type h0) as [s|] eqn:Hs; [|done].
    unfold set_remove in Hrm. destruct (set_contains s h0); [|done].
    injection Hrm as <-.
    unfold handlers_for at 1. cbn. rewrite lookup_insert.
    case_decide as Hk.
    + subst ty. cbn. intros Hin. apply IH.
      unfold handlers_for. rewrite Hs. cbn.
      eapply elem_of_sublist; [exact Hin|apply List_filter_sublist].
    + apply IH.
  - apply add_middleware_returned in Hadd as (_ & _ & _ & Hu).
    unfold handlers_for. rewrite Hu. apply IH.
  - apply start_prepares in Hst as (_ & _ & _ & Hu).
    unfold handlers_for. rewrite Hu. apply IH.
  - injection Hst as <-. apply IH.
Qed.

(** Every handler registered in a reachable bot can be removed, running or
    not: the removal returns the bot without that handler; the other
    handlers of the kind and the other kinds are kept. *)
Theorem remove_registered_handler (self : Bot) (ty : string) (h : Handler) :
  reachable self → ty ∈ update_types → h ∈ handlers_for self ty →
  ∃ bot, remove_update_handler self h = Returned bot
         ∧ (∀ h', h' ∈ handlers_for bot ty ↔ h' ∈ handlers_for self ty ∧ h' ≠ h)
         ∧ (∀ ty', ty' ≠ ty → handlers_for bot ty' = handlers_for self ty')
         ∧ running bot = running self
         ∧ middlewares bot = middlewares self.
Proof.
  intros Hr Hty Hin.
  pose proof (reachable_update_type self ty h Hr Hin) as Hk. subst ty.
  pose proof (handlers_for_lookup self _ Hr Hty) as Hs.
  pose proof (registry_wf_NoDup self _ (reachable_registry_wf self Hr) Hty) as Hnd.
  destruct (remove_update_handler_member self h _ Hs Hnd Hin) as (s' & -> & Hs').
  eexists. split; [reflexivity|]. split; [|split; [|done]].
  - intros h'. rewrite handlers_for_set_handlers, decide_True by done. apply Hs'.
  - intros ty' Hne. by rewrite handlers_for_set_handlers, decide_False.
Qed.

Lemma remove_registered_handler_witness :
  let self := started_bot (register_all (Bot___init__ 0)
                             [(printing 1 "A", None); (printing 2 "B", None)]) in
  let hA := {| handler_oid := 0; function := printing 1 "A";
               update_type := "message"; filters := None |} in
  ∃ bot, remove_update_handler self hA = Returned bot
         ∧ (∀ h', h' ∈ handlers_for bot "message"
                  ↔ h' ∈ handlers_for self "message" ∧ h' ≠ hA)
         ∧ (∀ ty', ty' ≠ "message" → handlers_for bot ty' = handlers_for self ty')
         ∧ running bot = running self
         ∧ middlewares bot = middlewares self.
Proof.
  intros self hA.
  apply (remove_registered_handler self "message" hA).
  - apply (reachable_start
             (register_all (Bot___init__ 0)
                [(printing 1 "A", None); (printing 2 "B", None)]));
      [|reflexivity].
    apply (reachable_add_update_handler
             (register_all (Bot___init__ 0) [(printing 1 "A", None)])
             (printing 2 "B") "message" None _
             {| handler_oid := 1; function := printing 2 "B";
                update_type := "message"; filters := None |});
      [|reflexivity].
    apply (reachable_add_update_handler (Bot___init__ 0) (printing 1 "A")
             "message" None _ hA);
      [apply reachable_init|reflexivity].
  - apply (bool_decide_unpack _). vm_compute. exact I.
  - apply list_elem_of_here.
Defined.

(** ** Witnesses for the guard and for the registry invariant *)



Lemma reachable_registry_wf_witness :
  registry_wf (register_all (Bot___init__ 0) [(printing 1 "H", None)]).
Proof.
  apply reachable_registry_wf.
  apply (reachable_add_update_handler (Bot___init__ 0) (printing 1 "H")
           "message" None _
           {| handler_oid := 0; function := printing 1 "H";
              update_type := "message"; filters := None |});
    [apply reachable_init|reflexivity].
Defined.
